(** * Sveltick performance tracker: a shallow embedding of
    [src/PerformanceTracker.js] and the properties of its aggregation,
    alerting and scoring pipeline.

    JavaScript numbers are modelled by exact rationals ([Q]); the value NaN
    is the [None] of [option Q].  The rounding error of IEEE doubles is
    outside the model.  Strings are real strings: [toFixed] prints a
    decimal numeral and [StringToNumber] reads one back. *)

From Stdlib Require Import ZArith NArith QArith Qround Qabs Lqa Lia Bool List Ascii String.
From stdpp Require Import base gmap strings.

Import ListNotations.
Local Open Scope Z_scope.
Local Open Scope Q_scope.
Local Open Scope string_scope.
Local Open Scope list_scope.

(** ** JavaScript values *)

Module JS.

(** The values the tracker stores, compares and passes around. *)
Inductive value : Type :=
| VUndefined
| VNull
| VNum (q : Q)
| VStr (s : string).

(** [a > b] and [a <= b] on rationals, as booleans. *)
Definition Qgtb (a b : Q) : bool := negb (Qle_bool a b).

(** *** Decimal numerals *)

Definition digit_char (n : N) : ascii := ascii_of_N (48 + n mod 10).

Definition digit_val (c : ascii) : option N :=
  let n := N_of_ascii c in
  if ((48 <=? n) && (n <=? 57))%N then Some (n - 48)%N else None.

(** The decimal digits of [n], most significant first; ["0"] for zero. *)
Fixpoint digits_aux (fuel : nat) (n : N) (acc : string) : string :=
  match fuel with
  | O => acc
  | S k =>
      let acc' := String (digit_char n) acc in
      if (n / 10 =? 0)%N then acc' else digits_aux k (n / 10)%N acc'
  end.

Definition decimal_digits (n : N) : string :=
  digits_aux (S (N.to_nat (N.log2 n))) n "".

Fixpoint zeros (k : nat) : string :=
  match k with
  | O => ""
  | S k' => String "0" (zeros k')
  end.

(** [Number.prototype.toFixed(f)] on a finite number below 1e21
    (ECMAScript, Number.prototype.toFixed, steps 6 to 11):
    a negative [x] is printed as ["-"] followed by the numeral of [-x];
    [n] is the integer for which [n / 10^f - x] is closest to zero, the
    larger one on a tie; its digits are left-padded with zeros to [f + 1]
    characters and a point is put before the last [f]. *)
Definition toFixed_n (x : Q) (f : nat) : N :=
  Z.to_N (Qfloor (Qabs x * inject_Z (10 ^ Z.of_nat f) + (1 # 2))).

Definition toFixed (x : Q) (f : nat) : string :=
  let s := if Qgtb 0 x then "-" else "" in
  let n := toFixed_n x f in
  let m := decimal_digits n in
  let m :=
    if (f =? 0)%nat then m
    else
      let k := String.length m in
      let m := if (k <=? f)%nat then zeros (f + 1 - k) +:+ m else m in
      let k := String.length m in
      substring 0 (k - f) m +:+ "." +:+ substring (k - f) f m
  in
  s +:+ m.

(** Reading a numeral: digits accumulate from the left. *)
Fixpoint parse_digits (s : string) (acc : N) : option N :=
  match s with
  | "" => Some acc
  | String c r =>
      match digit_val c with
      | Some d => parse_digits r (10 * acc + d)%N
      | None => None
      end
  end.

(** Splits at the first point: the text before it and, when there is a
    point, the text after it. *)
Fixpoint split_point (s : string) : string * option string :=
  match s with
  | "" => ("", None)
  | String c r =>
      if Ascii.eqb c "." then ("", Some r)
      else let '(a, b) := split_point r in (String c a, b)
  end.

Definition unsigned_decimal (s : string) : option Q :=
  let '(a, b) := split_point s in
  let b := match b with Some b => b | None => "" end in
  match a, b with
  | "", "" => None
  | _, _ =>
      match parse_digits a 0%N with
      | Some i =>
          match parse_digits b (i)%N with
          | Some t => Some (Qmake (Z.of_N t) (Z.to_pos (10 ^ Z.of_nat (String.length b))))
          | None => None
          end
      | None => None
      end
  end.

(** [StringToNumber] on the numerals this program produces: an optional
    sign, digits, an optional point and digits.  The empty string is 0.
    Every other text is given NaN here; exponents, hexadecimal numerals,
    surrounding white space and the word Infinity are never produced by
    the tracker and are outside the model. *)
Definition StringToNumber (s : string) : option Q :=
  match s with
  | "" => Some 0
  | String c r =>
      if Ascii.eqb c "-" then option_map Qopp (unsigned_decimal r)
      else if Ascii.eqb c "+" then unsigned_decimal r
      else unsigned_decimal s
  end.

(** [ToNumber]: null is 0, undefined is NaN. *)
Definition ToNumber (v : value) : option Q :=
  match v with
  | VUndefined => None
  | VNull => Some 0
  | VNum q => Some q
  | VStr s => StringToNumber s
  end.

(** [a > b], the relational comparison: two strings are compared as
    strings, code unit by code unit; otherwise both sides become numbers
    and any NaN makes the comparison false. *)
Definition gt (a b : value) : bool :=
  match a, b with
  | VStr s, VStr t =>
      match String.compare s t with Gt => true | _ => false end
  | _, _ =>
      match ToNumber a, ToNumber b with
      | Some x, Some y => Qgtb x y
      | _, _ => false
      end
  end.

(** [v != null], the loose inequality: false for null and undefined. *)
Definition not_nullish (v : value) : bool :=
  match v with
  | VUndefined | VNull => false
  | _ => true
  end.

(** [v === null]. *)
Definition is_null (v : value) : bool :=
  match v with
  | VNull => true
  | _ => false
  end.

(** [a - b], with NaN as [None]. *)
Definition sub (a b : value) : option Q :=
  match ToNumber a, ToNumber b with
  | Some x, Some y => Some (x - y)
  | _, _ => None
  end.

(** [Math.round]: the nearest integer, halves going up. *)
Definition Math_round (x : Q) : Z := Qfloor (x + (1 # 2)).

End JS.

(** ** The tracker's data *)

Import JS.

(** A JavaScript object read by key: the threshold configuration. *)
Abbreviation Thresholds := (gmap string value).

(** Reading a key of an object; an absent key reads as undefined. *)
Definition prop (o : Thresholds) (k : string) : value :=
  match o !! k with
  | Some v => v
  | None => VUndefined
  end.

(** [{ ...a, ...b }]: the keys of [b] override those of [a]. *)
Definition spread (a b : Thresholds) : Thresholds := b ∪ a.

Definition defaultThresholds : Thresholds :=
  <["fcp" := VNum 2000]>
  (<["lcp" := VNum 2500]>
  (<["tti" := VNum 3000]>
  (<["cls" := VNum 0.1]>
  (<["fid" := VNum 100]>
  (<["inp" := VNum 200]>
  (<["ttfb" := VNum 800]>
  (<["componentRenderTime" := VNum 500]> ∅))))))).

Definition MAX_SCORE : Q := 100.

(** An element of [componentRenderTimes], and the object returned by
    [trackComponentRender]. *)
Record ComponentRender : Type := mkRender {
  name : string;
  renderTime : value
}.

(** The module-level [performanceMetrics] object. *)
Record PerformanceMetrics : Type := mkMetrics {
  firstContentfulPaint : value;
  timeToInteractive : value;
  largestContentfulPaint : value;
  cumulativeLayoutShift : value;
  firstInputDelay : value;
  interactionToNextPaint : value;
  timeToFirstByte : value;
  componentRenderTimes : list ComponentRender
}.

Definition initialMetrics : PerformanceMetrics :=
  {| firstContentfulPaint := VNull;
     timeToInteractive := VNull;
     largestContentfulPaint := VNull;
     cumulativeLayoutShift := VNum 0;
     firstInputDelay := VNull;
     interactionToNextPaint := VNull;
     timeToFirstByte := VNull;
     componentRenderTimes := [] |}.

(** The seven scalar metrics, by the label the alerts print. *)
Inductive Metric : Type := FCP | LCP | TTI | CLS | FID | INP | TTFB.

Definition all_metrics : list Metric := [FCP; LCP; TTI; CLS; FID; INP; TTFB].

Definition scalar (m : Metric) (pm : PerformanceMetrics) : value :=
  match m with
  | FCP => firstContentfulPaint pm
  | LCP => largestContentfulPaint pm
  | TTI => timeToInteractive pm
  | CLS => cumulativeLayoutShift pm
  | FID => firstInputDelay pm
  | INP => interactionToNextPaint pm
  | TTFB => timeToFirstByte pm
  end.

Definition set_scalar (m : Metric) (v : value) (pm : PerformanceMetrics)
  : PerformanceMetrics :=
  {| firstContentfulPaint := match m with FCP => v | _ => firstContentfulPaint pm end;
     timeToInteractive := match m with TTI => v | _ => timeToInteractive pm end;
     largestContentfulPaint := match m with LCP => v | _ => largestContentfulPaint pm end;
     cumulativeLayoutShift := match m with CLS => v | _ => cumulativeLayoutShift pm end;
     firstInputDelay := match m with FID => v | _ => firstInputDelay pm end;
     interactionToNextPaint := match m with INP => v | _ => interactionToNextPaint pm end;
     timeToFirstByte := match m with TTFB => v | _ => timeToFirstByte pm end;
     componentRenderTimes := componentRenderTimes pm |}.

Definition set_renders (l : list ComponentRender) (pm : PerformanceMetrics)
  : PerformanceMetrics :=
  {| firstContentfulPaint := firstContentfulPaint pm;
     timeToInteractive := timeToInteractive pm;
     largestContentfulPaint := largestContentfulPaint pm;
     cumulativeLayoutShift := cumulativeLayoutShift pm;
     firstInputDelay := firstInputDelay pm;
     interactionToNextPaint := interactionToNextPaint pm;
     timeToFirstByte := timeToFirstByte pm;
     componentRenderTimes := l |}.

(** The key of the threshold object that belongs to a metric. *)
Definition threshold_key (m : Metric) : string :=
  match m with
  | FCP => "fcp" | LCP => "lcp" | TTI => "tti" | CLS => "cls"
  | FID => "fid" | INP => "inp" | TTFB => "ttfb"
  end.

(** What [console.warn] receives.  The texts are templates over these
    parts. *)
Inductive Warning : Type :=
| Exceeded (m : Metric) (observed threshold : value)
| ComponentExceeded (component : string) (observed threshold : value)
| NoFirstInputDelay
| NoInteraction.

(** ** trackComponentRender *)

(** Pushes [{ name, renderTime }] and returns a new object whose
    [renderTime] is the 2-decimal text. *)
Definition trackComponentRender (n : string) (rt : Q) (pm : PerformanceMetrics)
  : PerformanceMetrics * ComponentRender :=
  (set_renders (componentRenderTimes pm ++ [mkRender n (VNum rt)]) pm,
   mkRender n (VStr (toFixed rt 2))).

(** ** checkPerformanceAlerts *)

(** The argument of [checkPerformanceAlerts]: left out, [null], or an
    object. *)
Inductive ThresholdsArg : Type :=
| ArgOmitted
| ArgNull
| ArgObject (t : Thresholds).

(** [thresholds = {}] fills in an omitted argument; then
    [thresholds || defaultThresholds] replaces a falsy one. *)
Definition alert_source (a : ThresholdsArg) : Thresholds :=
  match a with
  | ArgOmitted => ∅
  | ArgNull => defaultThresholds
  | ArgObject t => t
  end.

Definition check_scalar (m : Metric) (pm : PerformanceMetrics) (t : value)
  : list Warning :=
  if not_nullish (scalar m pm) && gt (scalar m pm) t
  then [Exceeded m (scalar m pm) t]
  else [].

Definition check_render (t : value) (r : ComponentRender) : list Warning :=
  if gt (renderTime r) t
  then [ComponentExceeded (name r) (renderTime r) t]
  else [].

Definition checkPerformanceAlerts (a : ThresholdsArg) (pm : PerformanceMetrics)
  : list Warning :=
  let o := alert_source a in
  let fcp := prop o "fcp" in
  let lcp := prop o "lcp" in
  let tti := prop o "tti" in
  let cls := prop o "cls" in
  let fid := prop o "fid" in
  let inp := prop o "inp" in
  let ttfb := prop o "ttfb" in
  let componentRenderTime := prop o "componentRenderTime" in
  check_scalar FCP pm fcp ++
  check_scalar LCP pm lcp ++
  check_scalar TTI pm tti ++
  check_scalar CLS pm cls ++
  check_scalar FID pm fid ++
  check_scalar INP pm inp ++
  check_scalar TTFB pm ttfb ++
  flat_map (check_render componentRenderTime) (componentRenderTimes pm).

(** ** calculatePerformanceScore *)

(** [(v - c) / 100] and [(v - c) * 100]; NaN is [None]. *)
Definition diff_div (v c : value) : option Q :=
  option_map (fun d => d / 100) (sub v c).

Definition diff_mul (v c : value) : option Q :=
  option_map (fun d => d * 100) (sub v c).

Definition metricDifferences (pm : PerformanceMetrics) : list (option Q) :=
  [ diff_div (firstContentfulPaint pm) (prop defaultThresholds "fcp");
    diff_div (largestContentfulPaint pm) (prop defaultThresholds "lcp");
    diff_div (timeToInteractive pm) (prop defaultThresholds "tti");
    diff_mul (cumulativeLayoutShift pm) (prop defaultThresholds "cls");
    diff_div (firstInputDelay pm) (prop defaultThresholds "fid");
    diff_div (interactionToNextPaint pm) (prop defaultThresholds "inp");
    diff_div (timeToFirstByte pm) (prop defaultThresholds "ttfb") ].

(** [if (diff > 0) score -= diff]; a NaN difference fails the test. *)
Definition subtract_if_positive (score : Q) (diff : option Q) : Q :=
  match diff with
  | Some d => if Qgtb d 0 then score - d else score
  | None => score
  end.

(** The amount a difference takes off the score. *)
Definition penalty (d : option Q) : Q :=
  match d with
  | Some q => if Qgtb q 0 then q else 0
  | None => 0
  end.

Definition renderDifference (r : ComponentRender) : option Q :=
  diff_div (renderTime r) (prop defaultThresholds "componentRenderTime").

(** The running score before rounding.  The differences and the
    subtractions are exact here; the source takes them in binary64
    floating point, where each operation rounds, so that a sum within
    rounding error of a half can round to the neighbouring integer. *)
Definition raw_score (pm : PerformanceMetrics) : Q :=
  let score := MAX_SCORE in
  let score := fold_left subtract_if_positive (metricDifferences pm) score in
  fold_left subtract_if_positive (map renderDifference (componentRenderTimes pm)) score.

Definition calculatePerformanceScore (pm : PerformanceMetrics) : Z :=
  Z.max 0 (Math_round (raw_score pm)).

(** ** provideFeedback *)

Inductive Tier : Type := Excellent | Good | NeedsImprovement.

(** A feedback text: its tier and the score it quotes. *)
Record Message : Type := mkMessage { tier : Tier; quoted : Z }.

Record FeedbackEntry : Type := mkEntry { threshold : Z; message : Message }.

Definition feedbackMap (score : Z) : list FeedbackEntry :=
  [ mkEntry 90 (mkMessage Excellent score);
    mkEntry 70 (mkMessage Good score);
    mkEntry 0 (mkMessage NeedsImprovement score) ].

(** [console.log(feedback?.message)]: [None] is the logged undefined
    when no entry matches. *)
Definition provideFeedback (score : Z) : option Message :=
  option_map message
    (List.find (fun fb => (threshold fb <=? score)%Z) (feedbackMap score)).


(** ** The host environment and its events *)

(** What the collectors read from the host when they are called.
    [has_PerformanceObserver] is ['PerformanceObserver' in window] and
    is only looked at when there is a window.  The globals [document]
    and [performance] and the object [performance.timing] are read
    without a test: [has_document], [has_performance] and [has_timing]
    say whether they are there, and the readings [readyState_complete],
    [performance_now] and the two of [performance.timing] count only
    when they are. *)
Record Host : Type := mkHost {
  has_window : bool;
  has_PerformanceObserver : bool;
  readyState_complete : bool;
  performance_now : Q;
  timing_responseStart : Q;
  timing_requestStart : Q;
  has_document : bool;
  has_performance : bool;
  has_timing : bool
}.

Record PaintEntry : Type := mkPaint { paint_name : string; paint_startTime : Q }.
Record LayoutShift : Type := mkShift { hadRecentInput : bool; shift_value : Q }.
Record FirstInput : Type := mkInput { processingStart : Q; input_startTime : Q }.

(** What the host delivers after a call: observer callbacks with their
    entry lists, the window's load and click events with the clock
    reading taken in the handler, and the two 5000 ms timers.  A load
    or a click in a host that has no [performance] is a
    [LoadWithoutClock] or a [ClickWithoutClock]: the handler's
    [performance.now()] throws. *)
Inductive Event : Type :=
| PaintEntries (entries : list PaintEntry)
| LoadEvent (now : Q)
| LargestPaintEntries (startTimes : list Q)
| LayoutShiftEntries (entries : list LayoutShift)
| FirstInputEntries (entries : list FirstInput)
| Click (now timeStamp : Q)
| FidTimer
| InpTimer
| LoadWithoutClock
| ClickWithoutClock.

Inductive Exception : Type :=
| ReferenceError (identifier : string)
| TypeError (reading : string).

Inductive Promise (A : Type) : Type :=
| Pending
| Fulfilled (v : A)
| Rejected (e : Exception).
Arguments Pending {A}.
Arguments Fulfilled {A} v.
Arguments Rejected {A} e.

(** [resolve(v)]: only the first settlement of a promise counts. *)
Definition resolve {A} (v : A) (p : Promise A) : Promise A :=
  match p with
  | Pending => Fulfilled v
  | _ => p
  end.

(** What a run leaves on the console ([console.warn], [console.log]),
    and the errors thrown inside host callbacks, which nobody catches. *)
Inductive Output : Type :=
| Warn (w : Warning)
| Uncaught (e : Exception)
| LogMetrics (pm : PerformanceMetrics)
| LogFeedback (m : option Message).

(** One call of a collector: its promise, whether its observer or
    listener is still attached, whether its timer is still to fire, and
    the [interactionOccurred] flag of the interaction collector. *)
Record Call : Type := mkCall {
  promise : Promise value;
  attached : bool;
  timer : bool;
  interactionOccurred : bool
}.

Definition settled_now (v : value) : Call :=
  mkCall (Fulfilled v) false false false.

Definition observing : Call := mkCall Pending true false false.

Definition with_promise (p : Promise value) (c : Call) : Call :=
  mkCall p (attached c) (timer c) (interactionOccurred c).

Definition detach (c : Call) : Call :=
  mkCall (promise c) false (timer c) (interactionOccurred c).

Definition supported (h : Host) : bool :=
  has_window h && has_PerformanceObserver h.

(** The host has what the collectors read without a test: [document],
    [performance] and [performance.timing]. *)
Definition readable (h : Host) : bool :=
  has_document h && has_performance h && has_timing h.

(** ** The signal collectors

    Each collector is its call, which runs the promise executor, and
    its handler, which runs the callback the executor registered. *)

Definition trackFirstContentfulPaint (h : Host) : Call :=
  if supported h then observing else settled_now VNull.

Definition onFirstContentfulPaint (e : Event) (c : Call) : Call * list Output :=
  match e with
  | PaintEntries entries =>
      if attached c then
        match List.find (fun p => String.eqb (paint_name p) "first-contentful-paint") entries with
        | Some entry =>
            (detach (with_promise (resolve (VStr (toFixed (paint_startTime entry) 2)) (promise c)) c), [])
        | None => (c, [])
        end
      else (c, [])
  | _ => (c, [])
  end.

(** The load listener is added first.  Then [document.readyState] is
    read: without a document the executor throws there, and in a
    complete document without [performance] at [performance.now()];
    the promise is rejected, with the listener in place. *)
Definition trackTimeToInteractive (h : Host) : Call :=
  if has_window h then
    let c := observing in
    if has_document h then
      if readyState_complete h then
        if has_performance h
        then with_promise (resolve (VStr (toFixed (performance_now h) 2)) (promise c)) c
        else with_promise (Rejected (ReferenceError "performance")) c
      else c
    else with_promise (Rejected (ReferenceError "document")) c
  else settled_now VNull.

Definition onTimeToInteractive (e : Event) (c : Call) : Call * list Output :=
  match e with
  | LoadEvent now =>
      if attached c
      then (with_promise (resolve (VStr (toFixed now 2)) (promise c)) c, [])
      else (c, [])
  | LoadWithoutClock =>
      if attached c
      then (c, [Uncaught (ReferenceError "performance")])
      else (c, [])
  | _ => (c, [])
  end.

Definition trackLargestContentfulPaint (h : Host) : Call :=
  if supported h then observing else settled_now VNull.

(** [entries[entries.length - 1]] of an empty list is undefined, and
    reading [startTime] of it throws inside the callback. *)
Definition onLargestContentfulPaint (e : Event) (c : Call) : Call * list Output :=
  match e with
  | LargestPaintEntries entries =>
      if attached c then
        match List.last (map Some entries) None with
        | Some startTime =>
            (detach (with_promise (resolve (VStr (toFixed startTime 2)) (promise c)) c), [])
        | None => (c, [Uncaught (TypeError "startTime")])
        end
      else (c, [])
  | _ => (c, [])
  end.

Definition trackCumulativeLayoutShift (h : Host) : Call :=
  if supported h then observing else settled_now VNull.

(** [if (!entry.hadRecentInput && entry.value) clsValue += entry.value];
    a number is truthy when it is not zero. *)
Definition add_shift (clsValue : Q) (entry : LayoutShift) : Q :=
  if negb (hadRecentInput entry) && negb (Qeq_bool (shift_value entry) 0)
  then clsValue + shift_value entry
  else clsValue.

Definition onCumulativeLayoutShift (e : Event) (c : Call) : Call * list Output :=
  match e with
  | LayoutShiftEntries entries =>
      if attached c then
        let clsValue := fold_left add_shift entries 0 in
        (detach (with_promise (resolve (VStr (toFixed clsValue 4)) (promise c)) c), [])
      else (c, [])
  | _ => (c, [])
  end.

Definition trackFirstInputDelay (h : Host) : Call :=
  if supported h then mkCall Pending true true false else settled_now VNull.

(** The timer of the input-delay collector tests the shared
    [performanceMetrics.firstInputDelay], so the handler reads the
    store. *)
Definition onFirstInputDelay (pm : PerformanceMetrics) (e : Event) (c : Call)
  : Call * list Output :=
  match e with
  | FirstInputEntries entries =>
      if attached c then
        match entries with
        | firstEntry :: _ =>
            (detach (with_promise
               (resolve (VStr (toFixed (processingStart firstEntry - input_startTime firstEntry) 2))
                        (promise c)) c), [])
        | [] => (c, [Uncaught (TypeError "processingStart")])
        end
      else (c, [])
  | FidTimer =>
      if timer c then
        let c := mkCall (promise c) (attached c) false (interactionOccurred c) in
        if is_null (firstInputDelay pm)
        then (with_promise (resolve VNull (promise c)) c, [Warn NoFirstInputDelay])
        else (c, [])
      else (c, [])
  | _ => (c, [])
  end.

(** The interaction collector reaches for [window] without a test: with
    no window the executor throws and the promise is rejected. *)
Definition trackInteractionToNextPaint (h : Host) : Call :=
  if has_window h then mkCall Pending true true false
  else mkCall (Rejected (ReferenceError "window")) false false false.

Definition onInteractionToNextPaint (e : Event) (c : Call) : Call * list Output :=
  match e with
  | Click now timeStamp =>
      if attached c then
        (mkCall (resolve (VStr (toFixed (now - timeStamp) 2)) (promise c))
                false (timer c) true, [])
      else (c, [])
  | ClickWithoutClock =>
      if attached c
      then (c, [Uncaught (ReferenceError "performance")])
      else (c, [])
  | InpTimer =>
      if timer c then
        let c := mkCall (promise c) (attached c) false (interactionOccurred c) in
        if negb (interactionOccurred c)
        then (with_promise (resolve VNull (promise c)) c, [Warn NoInteraction])
        else (c, [])
      else (c, [])
  | _ => (c, [])
  end.

(** [performance.timing.responseStart] is read with no test but the
    one for a window: without [performance] the executor throws a
    ReferenceError, and without [performance.timing] a TypeError, and
    the promise is rejected. *)
Definition trackTimeToFirstByte (h : Host) : Call :=
  if has_window h then
    if has_performance h then
      if has_timing h
      then settled_now (VStr (toFixed (timing_responseStart h - timing_requestStart h) 2))
      else mkCall (Rejected (TypeError "responseStart")) false false false
    else mkCall (Rejected (ReferenceError "performance")) false false false
  else settled_now VNull.

(** ** getPerformanceMetrics *)

(** The seven calls of one aggregation, in the order of the array given
    to [Promise.all]. *)
Record Cycle : Type := mkCycle {
  c_fcp : Call;
  c_tti : Call;
  c_lcp : Call;
  c_cls : Call;
  c_fid : Call;
  c_inp : Call;
  c_ttfb : Call
}.

Definition start_cycle (h : Host) : Cycle :=
  {| c_fcp := trackFirstContentfulPaint h;
     c_tti := trackTimeToInteractive h;
     c_lcp := trackLargestContentfulPaint h;
     c_cls := trackCumulativeLayoutShift h;
     c_fid := trackFirstInputDelay h;
     c_inp := trackInteractionToNextPaint h;
     c_ttfb := trackTimeToFirstByte h |}.

(** The host hands an event to every callback registered for it. *)
Definition deliver (pm : PerformanceMetrics) (e : Event) (c : Cycle)
  : Cycle * list Output :=
  let '(fcp, o1) := onFirstContentfulPaint e (c_fcp c) in
  let '(tti, o2) := onTimeToInteractive e (c_tti c) in
  let '(lcp, o3) := onLargestContentfulPaint e (c_lcp c) in
  let '(cls, o4) := onCumulativeLayoutShift e (c_cls c) in
  let '(fid, o5) := onFirstInputDelay pm e (c_fid c) in
  let '(inp, o6) := onInteractionToNextPaint e (c_inp c) in
  (mkCycle fcp tti lcp cls fid inp (c_ttfb c), o1 ++ o2 ++ o3 ++ o4 ++ o5 ++ o6).

(** [Promise.all] over a list of promises: rejected as soon as one is,
    fulfilled with all the values once every one is. *)
Fixpoint Promise_all (ps : list (Promise value)) : Promise (list value) :=
  match ps with
  | [] => Fulfilled []
  | p :: rest =>
      match p, Promise_all rest with
      | Rejected e, _ => Rejected e
      | _, Rejected e => Rejected e
      | Fulfilled v, Fulfilled vs => Fulfilled (v :: vs)
      | _, _ => Pending
      end
  end.

Definition promises (c : Cycle) : list (Promise value) :=
  [ promise (c_fcp c); promise (c_tti c); promise (c_lcp c); promise (c_cls c);
    promise (c_fid c); promise (c_inp c); promise (c_ttfb c) ].

(** [performanceMetrics = { ...performanceMetrics, firstContentfulPaint, ... }] *)
Definition merge (vs : list value) (pm : PerformanceMetrics) : PerformanceMetrics :=
  match vs with
  | [fcp; tti; lcp; cls; fid; inp; ttfb] =>
      {| firstContentfulPaint := fcp;
         timeToInteractive := tti;
         largestContentfulPaint := lcp;
         cumulativeLayoutShift := cls;
         firstInputDelay := fid;
         interactionToNextPaint := inp;
         timeToFirstByte := ttfb;
         componentRenderTimes := componentRenderTimes pm |}
  | _ => pm
  end.

(** The state of a run: the promise the caller holds, the store, and
    what reached the console. *)
Record Run (A : Type) : Type := mkRun {
  returned : Promise A;
  store : PerformanceMetrics;
  output : list Output
}.
Arguments mkRun {A}.
Arguments returned {A}.
Arguments store {A}.
Arguments output {A}.

(** The await: events are taken one by one until the join settles. *)
Fixpoint await_all (pm : PerformanceMetrics) (c : Cycle) (events : list Event)
  (out : list Output) : Run PerformanceMetrics :=
  match Promise_all (promises c) with
  | Fulfilled vs => mkRun (Fulfilled (merge vs pm)) (merge vs pm) out
  | Rejected e => mkRun (Rejected e) pm out
  | Pending =>
      match events with
      | [] => mkRun Pending pm out
      | e :: rest =>
          let '(c', o) := deliver pm e c in
          await_all pm c' rest (out ++ o)
      end
  end.

(** One call of [getPerformanceMetrics] in host [h], followed by the
    events the host delivers while the call is awaited. *)
Definition getPerformanceMetrics (h : Host) (events : list Event)
  (pm : PerformanceMetrics) : Run PerformanceMetrics :=
  await_all pm (start_cycle h) events [].

(** ** runGamification and runPerformanceTracker *)

(** Continues an asynchronous function after its await: the rest runs
    on the store the awaited call left, and only if that call was
    fulfilled. *)
Definition then_log {A} (r : Run A) (rest : PerformanceMetrics -> list Output)
  : Run unit :=
  match returned r with
  | Fulfilled _ => mkRun (Fulfilled tt) (store r) (output r ++ rest (store r))
  | Pending => mkRun Pending (store r) (output r)
  | Rejected e => mkRun (Rejected e) (store r) (output r)
  end.

Definition gamify (pm : PerformanceMetrics) : list Output :=
  let score := calculatePerformanceScore pm in
  [LogFeedback (provideFeedback score)].

Definition runGamification (h : Host) (events : list Event)
  (pm : PerformanceMetrics) : Run unit :=
  then_log (getPerformanceMetrics h events pm) gamify.

(** The options object; [None] is an omitted key, which the
    destructuring replaces by its default. *)
Record Options : Type := mkOptions {
  trackMetrics : option bool;
  showAlerts : option bool;
  enableGamification : option bool;
  thresholds : option Thresholds
}.

Definition or_default {A} (d : A) (o : option A) : A :=
  match o with
  | Some a => a
  | None => d
  end.

Definition runPerformanceTracker (options : Options) (h : Host)
  (events : list Event) (pm : PerformanceMetrics) : Run unit :=
  let trackMetrics := or_default true (trackMetrics options) in
  let showAlerts := or_default true (showAlerts options) in
  let enableGamification := or_default true (enableGamification options) in
  let thresholds := or_default ∅ (thresholds options) in
  let mergedThresholds := spread defaultThresholds thresholds in
  let tracked : Run unit :=
    if trackMetrics
    then then_log (getPerformanceMetrics h events pm) (fun pm' => [LogMetrics pm'])
    else mkRun (Fulfilled tt) pm [] in
  then_log tracked (fun pm' =>
    (if showAlerts
     then map Warn (checkPerformanceAlerts (ArgObject mergedThresholds) pm')
     else []) ++
    (if enableGamification then gamify pm' else [])).

(** ** Sessions

    A page session is a sequence of calls of the exported functions,
    each asynchronous one run to the point its events take it before
    the next call starts. *)
Inductive Op : Type :=
| CallTrackComponentRender (n : string) (rt : Q)
| CallGetPerformanceMetrics (h : Host) (events : list Event)
| CallRunGamification (h : Host) (events : list Event)
| CallRunPerformanceTracker (options : Options) (h : Host) (events : list Event)
| CallCheckPerformanceAlerts (a : ThresholdsArg)
| CallCalculatePerformanceScore.

Definition step (pm : PerformanceMetrics) (op : Op) : PerformanceMetrics :=
  match op with
  | CallTrackComponentRender n rt => fst (trackComponentRender n rt pm)
  | CallGetPerformanceMetrics h events => store (getPerformanceMetrics h events pm)
  | CallRunGamification h events => store (runGamification h events pm)
  | CallRunPerformanceTracker o h events => store (runPerformanceTracker o h events pm)
  | CallCheckPerformanceAlerts _ => pm
  | CallCalculatePerformanceScore => pm
  end.

Definition session (ops : list Op) : PerformanceMetrics :=
  fold_left step ops initialMetrics.

(** Aggregation run again and again, each run in its own host state
    and with its own events. *)
Definition aggregations (calls : list (Host * list Event)) (pm : PerformanceMetrics)
  : PerformanceMetrics :=
  fold_left (fun pm call => store (getPerformanceMetrics (fst call) (snd call) pm))
            calls pm.

(** ** The words of the specification, for comparison *)

(** The threshold the specification resolves for a metric: the
    configured one, and the fixed default for a key that is not set. *)
Definition spec_resolve (T : Thresholds) (k : string) : value :=
  match T !! k with
  | Some v => v
  | None => prop defaultThresholds k
  end.

(** The specification's alert condition: the value is known and
    strictly greater than the resolved threshold. *)
Definition spec_alerts (T : Thresholds) (pm : PerformanceMetrics) (m : Metric) : bool :=
  not_nullish (scalar m pm) && gt (scalar m pm) (spec_resolve T (threshold_key m)).

(** That the tracker warned about metric [m]. *)
Definition alerted (m : Metric) (ws : list Warning) : Prop :=
  exists observed t, In (Exceeded m observed t) ws.

(** The record of the specification's scenario for
    [trackComponentRender('Widget', 734.567)]: the render time is the
    number 734.57. *)
Definition spec_widget_record : ComponentRender :=
  mkRender "Widget" (VNum 734.57).

(** A value is within the default ceiling of key [k] when its number,
    if it has one, is at most that ceiling. *)
Definition within_ceiling (v : value) (k : string) : Prop :=
  forall q c,
    ToNumber v = Some q -> ToNumber (prop defaultThresholds k) = Some c -> q <= c.

(** The default ceiling of a metric. *)
Definition ceiling (m : Metric) : value := prop defaultThresholds (threshold_key m).

(** The specification's overage of a scalar metric: [(observed - ceiling) / 100],
    for layout shift [(observed - ceiling) * 100], and no overage at all
    for an unknown value. *)
Definition spec_overage (m : Metric) (v : value) : option Q :=
  if not_nullish v then
    match m with
    | CLS => diff_mul v (ceiling m)
    | _ => diff_div v (ceiling m)
    end
  else None.

(** The specification's score: start at 100, subtract every positive
    overage of the known scalars and of the render records, round, and
    clamp at 0. *)
Definition spec_score (pm : PerformanceMetrics) : Z :=
  let score := MAX_SCORE in
  let score :=
    fold_left subtract_if_positive
      (map (fun m => spec_overage m (scalar m pm)) all_metrics) score in
  let score :=
    fold_left subtract_if_positive
      (map renderDifference (componentRenderTimes pm)) score in
  Z.max 0 (Math_round score).

(** ** Sample snapshots, hosts and traces *)

Definition metrics_at_ceilings : PerformanceMetrics :=
  {| firstContentfulPaint := VStr "2000.00";
     timeToInteractive := VStr "3000.00";
     largestContentfulPaint := VStr "2500.00";
     cumulativeLayoutShift := VStr "0.1000";
     firstInputDelay := VNull;
     interactionToNextPaint := VStr "200.00";
     timeToFirstByte := VStr "800.00";
     componentRenderTimes := [mkRender "Widget" (VNum 500)] |}.

(** A server-side host: no window at all. *)
Definition server_host : Host := mkHost false false false 0 0 0 false false false.

(** A browser whose document is loaded, read 1234.5 ms after navigation
    start; the response started 300 ms after the request. *)
Definition browser_host : Host := mkHost true true true 1234.5 500 200 true true true.

(** The same browser with timing readings in which the response start
    lies 100 ms before the request start. *)
Definition skewed_host : Host := mkHost true true true 1234.5 100 200 true true true.

(** A full set of observations: a paint, a largest paint, two layout
    shifts of which one follows an input, a first input and a click. *)
Definition full_trace : list Event :=
  [ PaintEntries [mkPaint "first-paint" 801.2; mkPaint "first-contentful-paint" 812.345];
    LargestPaintEntries [900.1; 1520.456];
    LayoutShiftEntries [mkShift false 0.02; mkShift true 0.5; mkShift false 0.0312];
    FirstInputEntries [mkInput 2012.5 2000.25];
    Click 2100.75 2080.5 ].

(** The observations of a page nobody touches: paints and layout
    shifts, then the two timers. *)
Definition idle_trace : list Event :=
  [ PaintEntries [mkPaint "first-contentful-paint" 812.345];
    LargestPaintEntries [1520.456];
    LayoutShiftEntries [];
    FidTimer;
    InpTimer ].

(** ** What the scalar fields hold *)

(** The number of decimals a metric is printed with. *)
Definition decimals (m : Metric) : nat :=
  match m with
  | CLS => 4%nat
  | _ => 2%nat
  end.

(** The contents a scalar field can have: null, the number 0 the
    layout-shift field starts with, or the fixed-point text of a reading
    [x], of which [good] says what is known. *)
Inductive field_ok (good : Q -> Prop) (m : Metric) : value -> Prop :=
| field_unknown : field_ok good m VNull
| field_initial : m = CLS -> field_ok good m (VNum 0)
| field_text (x : Q) : good x -> field_ok good m (VStr (toFixed x (decimals m))).

Definition store_ok (good : Q -> Prop) (pm : PerformanceMetrics) : Prop :=
  forall m, field_ok good m (scalar m pm).

Definition promise_ok (good : Q -> Prop) (m : Metric) (p : Promise value) : Prop :=
  match p with
  | Fulfilled v => field_ok good m v
  | _ => True
  end.

Definition cycle_ok (good : Q -> Prop) (c : Cycle) : Prop :=
  promise_ok good FCP (promise (c_fcp c)) /\
  promise_ok good TTI (promise (c_tti c)) /\
  promise_ok good LCP (promise (c_lcp c)) /\
  promise_ok good CLS (promise (c_cls c)) /\
  promise_ok good FID (promise (c_fid c)) /\
  promise_ok good INP (promise (c_inp c)) /\
  promise_ok good TTFB (promise (c_ttfb c)).

(** The readings a host and its events hand to the collectors: the
    numbers that get printed. *)
Definition host_ok (good : Q -> Prop) (h : Host) : Prop :=
  good (performance_now h) /\
  good (timing_responseStart h - timing_requestStart h).

Definition event_ok (good : Q -> Prop) (e : Event) : Prop :=
  match e with
  | PaintEntries entries => Forall (fun p => good (paint_startTime p)) entries
  | LoadEvent now => good now
  | LargestPaintEntries startTimes => Forall good startTimes
  | LayoutShiftEntries entries => Forall (fun s => good (shift_value s)) entries
  | FirstInputEntries entries =>
      Forall (fun i => good (processingStart i - input_startTime i)) entries
  | Click now timeStamp => good (now - timeStamp)
  | FidTimer | InpTimer | LoadWithoutClock | ClickWithoutClock => True
  end.

Definition op_ok (good : Q -> Prop) (op : Op) : Prop :=
  match op with
  | CallGetPerformanceMetrics h events
  | CallRunGamification h events
  | CallRunPerformanceTracker _ h events =>
      host_ok good h /\ Forall (event_ok good) events
  | _ => True
  end.

Definition any_reading (x : Q) : Prop := True.

Definition nonneg_reading (x : Q) : Prop := 0 <= x.

(** The specification's reading of a scalar field: unknown, or a
    finite number that is not negative. *)
Definition spec_field (v : value) : Prop :=
  v = VNull \/ exists q, v = VNum q /\ 0 <= q.

(** The value of the numeral [toFixed] prints for [x]. *)
Definition toFixed_value (x : Q) (f : nat) : Q :=
  let q := Z.of_N (toFixed_n x f) # Z.to_pos (10 ^ Z.of_nat f) in
  if Qgtb 0 x then - q else q.

(** ** Readings of a cycle, of the console and of a session *)

(** The promise of the collector of a metric. *)
Definition promise_of (m : Metric) (c : Cycle) : Promise value :=
  match m with
  | FCP => promise (c_fcp c)
  | TTI => promise (c_tti c)
  | LCP => promise (c_lcp c)
  | CLS => promise (c_cls c)
  | FID => promise (c_fid c)
  | INP => promise (c_inp c)
  | TTFB => promise (c_ttfb c)
  end.

Definition settled {A} (p : Promise A) : bool :=
  match p with
  | Pending => false
  | _ => true
  end.

Definition rejected {A} (p : Promise A) : bool :=
  match p with
  | Rejected _ => true
  | _ => false
  end.

(** What the collectors themselves leave on the console: the two
    fallback warnings and the errors thrown in callbacks. *)
Definition collector_note (o : Output) : Prop :=
  match o with
  | Warn NoFirstInputDelay | Warn NoInteraction => True
  | Uncaught _ => True
  | _ => False
  end.

Definition is_feedback (o : Output) : bool :=
  match o with
  | LogFeedback _ => true
  | _ => false
  end.

(** The record a call of the session appends, if it is a call of
    [trackComponentRender]. *)
Definition tracked (op : Op) : list ComponentRender :=
  match op with
  | CallTrackComponentRender n rt => [mkRender n (VNum rt)]
  | _ => []
  end.



(** That an event brings a first contentful paint. *)
Definition brings_contentful_paint (e : Event) : bool :=
  match e with
  | PaintEntries entries =>
      existsb (fun p => String.eqb (paint_name p) "first-contentful-paint") entries
  | _ => false
  end.

(** That an event is a batch of first-input entries. *)
Definition brings_first_input (e : Event) : bool :=
  match e with
  | FirstInputEntries _ => true
  | _ => false
  end.

(** The warning of the render record [r] against the ceiling [t]. *)
Definition render_warning (t : value) (r : ComponentRender) : Warning :=
  ComponentExceeded (name r) (renderTime r) t.

(** The digits [toFixed] prints after the sign. *)
Definition toFixed_digits (n : N) (f : nat) : string :=
  let m := decimal_digits n in
  if (f =? 0)%nat then m
  else
    let k := String.length m in
    let m := if (k <=? f)%nat then zeros (f + 1 - k) +:+ m else m in
    let k := String.length m in
    substring 0 (k - f) m +:+ "." +:+ substring (k - f) f m.

(** * Properties *)

Example toFixed_734 : JS.toFixed 734.567 2 = "734.57".
Proof. vm_compute. reflexivity. Qed.

Example toFixed_small : JS.toFixed (-0.001) 2 = "-0.00".
Proof. vm_compute. reflexivity. Qed.

Example toFixed_cls : JS.toFixed 0.25 4 = "0.2500".
Proof. vm_compute. reflexivity. Qed.

Example toFixed_zero_digits : JS.toFixed 12.5 0 = "13".
Proof. vm_compute. reflexivity. Qed.

Example parse_734 : JS.ToNumber (JS.VStr "734.57") = Some (73457 # 100).
Proof. vm_compute. reflexivity. Qed.

Example score_scenario :
  calculatePerformanceScore
    (mkMetrics (VNum 2500) (VNum 3000) VNull (VNum 0.1) VNull VNull VNull []) = 95%Z.
Proof. vm_compute. reflexivity. Qed.

Example alerts_scenario :
  checkPerformanceAlerts (ArgObject (<["componentRenderTime" := VNum 400]> ∅))
    (set_renders [mkRender "Widget" (VNum 734.57)] initialMetrics)
  = [ComponentExceeded "Widget" (VNum 734.57) (VNum 400)].
Proof. vm_compute. reflexivity. Qed.

(** ** Arithmetic of the score *)

Section ScoreArithmetic.

Local Open Scope Q_scope.

Lemma Qgtb_true (a b : Q) : Qgtb a b = true <-> b < a.
Proof.
  unfold Qgtb. rewrite negb_true_iff.
  split; intro H.
  - apply Qnot_le_lt. intro Hle. apply Qle_bool_iff in Hle. congruence.
  - destruct (Qle_bool a b) eqn:E; [|reflexivity].
    apply Qle_bool_iff in E. exfalso. apply (Qlt_not_le _ _ H E).
Qed.

Lemma Qgtb_false (a b : Q) : Qgtb a b = false <-> a <= b.
Proof.
  unfold Qgtb. rewrite negb_false_iff. apply Qle_bool_iff.
Qed.

Lemma penalty_nonneg (d : option Q) : 0 <= penalty d.
Proof.
  destruct d as [q|]; simpl; [|lra].
  destruct (Qgtb q 0) eqn:E; [|lra].
  apply Qgtb_true in E. lra.
Qed.

Lemma subtract_penalty (s : Q) (d : option Q) :
  subtract_if_positive s d == s - penalty d.
Proof.
  destruct d as [q|]; simpl; [|lra].
  destruct (Qgtb q 0); lra.
Qed.

Lemma subtract_le (s : Q) (d : option Q) : subtract_if_positive s d <= s.
Proof.
  rewrite subtract_penalty. pose proof (penalty_nonneg d). lra.
Qed.

Lemma fold_subtract_le (l : list (option Q)) (s : Q) :
  fold_left subtract_if_positive l s <= s.
Proof.
  revert s. induction l as [|d l IH]; intro s; simpl.
  - lra.
  - eapply Qle_trans; [apply IH | apply subtract_le].
Qed.

(** Larger penalties, position by position, and a smaller start give a
    smaller result. *)
Lemma fold_subtract_mono (l1 l2 : list (option Q)) :
  Forall2 (fun d1 d2 => penalty d1 <= penalty d2) l1 l2 ->
  forall s1 s2, s2 <= s1 ->
  fold_left subtract_if_positive l2 s2 <= fold_left subtract_if_positive l1 s1.
Proof.
  induction 1 as [|d1 d2 l1 l2 Hd Hl IH]; intros s1 s2 Hs; simpl.
  - exact Hs.
  - apply IH. rewrite !subtract_penalty. lra.
Qed.

Lemma Forall2_penalty_refl (l : list (option Q)) :
  Forall2 (fun d1 d2 => penalty d1 <= penalty d2) l l.
Proof.
  induction l; constructor; [lra | assumption].
Qed.

(** Differences with no penalty leave the running score as it is. *)
Lemma fold_subtract_free (l : list (option Q)) (s : Q) :
  (forall d, In d l -> forall s', subtract_if_positive s' d = s') ->
  fold_left subtract_if_positive l s = s.
Proof.
  intros H. revert s. induction l as [|d l IH]; intro s; simpl.
  - reflexivity.
  - rewrite (H d (or_introl eq_refl)). apply IH.
    intros d' Hin. apply H. right. exact Hin.
Qed.

Lemma Math_round_mono (x y : Q) : x <= y -> (Math_round x <= Math_round y)%Z.
Proof.
  intro H. unfold Math_round. apply Qfloor_resp_le. lra.
Qed.

Lemma Math_round_100 : Math_round MAX_SCORE = 100%Z.
Proof. reflexivity. Qed.

Lemma raw_score_le (pm : PerformanceMetrics) : raw_score pm <= MAX_SCORE.
Proof.
  unfold raw_score.
  eapply Qle_trans; [apply fold_subtract_le|].
  apply fold_subtract_le.
Qed.

End ScoreArithmetic.

(** ** The default thresholds, key by key *)

Lemma default_fcp : prop defaultThresholds "fcp" = VNum 2000.
Proof. vm_compute. reflexivity. Qed.
Lemma default_lcp : prop defaultThresholds "lcp" = VNum 2500.
Proof. vm_compute. reflexivity. Qed.
Lemma default_tti : prop defaultThresholds "tti" = VNum 3000.
Proof. vm_compute. reflexivity. Qed.
Lemma default_cls : prop defaultThresholds "cls" = VNum 0.1.
Proof. vm_compute. reflexivity. Qed.
Lemma default_fid : prop defaultThresholds "fid" = VNum 100.
Proof. vm_compute. reflexivity. Qed.
Lemma default_inp : prop defaultThresholds "inp" = VNum 200.
Proof. vm_compute. reflexivity. Qed.
Lemma default_ttfb : prop defaultThresholds "ttfb" = VNum 800.
Proof. vm_compute. reflexivity. Qed.
Lemma default_componentRenderTime :
  prop defaultThresholds "componentRenderTime" = VNum 500.
Proof. vm_compute. reflexivity. Qed.

Ltac rewrite_defaults :=
  rewrite ?default_fcp, ?default_lcp, ?default_tti, ?default_cls,
    ?default_fid, ?default_inp, ?default_ttfb, ?default_componentRenderTime.

(** ** The score is between 0 and 100 *)

Lemma diff_div_free (v : value) (c : Q) :
  (forall q, ToNumber v = Some q -> q <= c) ->
  forall s, subtract_if_positive s (diff_div v (VNum c)) = s.
Proof.
  intros H s. unfold diff_div, sub. simpl.
  destruct (ToNumber v) as [q|]; simpl; [|reflexivity].
  specialize (H q eq_refl).
  replace (Qgtb ((q - c) / 100) 0) with false; [reflexivity|].
  symmetry. apply Qgtb_false.
  apply Qle_shift_div_r; [reflexivity | lra].
Qed.

Lemma diff_mul_free (v : value) (c : Q) :
  (forall q, ToNumber v = Some q -> q <= c) ->
  forall s, subtract_if_positive s (diff_mul v (VNum c)) = s.
Proof.
  intros H s. unfold diff_mul, sub. simpl.
  destruct (ToNumber v) as [q|]; simpl; [|reflexivity].
  specialize (H q eq_refl).
  replace (Qgtb ((q - c) * 100) 0) with false; [reflexivity|].
  symmetry. apply Qgtb_false. lra.
Qed.

Lemma within_ceiling_le (v : value) (k : string) (c : Q) :
  prop defaultThresholds k = VNum c ->
  within_ceiling v k -> forall q, ToNumber v = Some q -> q <= c.
Proof.
  intros Hk H q Hq. apply (H q c Hq). rewrite Hk. reflexivity.
Qed.

(** C3. For every snapshot, [calculatePerformanceScore] is an integer
    between 0 and 100; and it is exactly 100 when no scalar metric that
    has a number and no render record is above its default ceiling. *)
Theorem score_in_range_and_full_at_ceilings :
  (forall pm, (0 <= calculatePerformanceScore pm <= 100)%Z) /\
  (forall pm,
     (forall m, within_ceiling (scalar m pm) (threshold_key m)) ->
     Forall (fun r => within_ceiling (renderTime r) "componentRenderTime")
            (componentRenderTimes pm) ->
     calculatePerformanceScore pm = 100%Z).
Proof.
  split.
  - intro pm. unfold calculatePerformanceScore. split.
    + apply Z.le_max_l.
    + apply Z.max_lub; [lia|].
      rewrite <- Math_round_100. apply Math_round_mono, raw_score_le.
  - intros pm Hm Hr.
    assert (E : raw_score pm = MAX_SCORE).
    { unfold raw_score.
      assert (E1 : fold_left subtract_if_positive (metricDifferences pm) MAX_SCORE
                   = MAX_SCORE).
      { unfold metricDifferences. rewrite_defaults. simpl.
        rewrite (diff_div_free _ 2000 (within_ceiling_le _ _ _ default_fcp (Hm FCP))).
        rewrite (diff_div_free _ 2500 (within_ceiling_le _ _ _ default_lcp (Hm LCP))).
        rewrite (diff_div_free _ 3000 (within_ceiling_le _ _ _ default_tti (Hm TTI))).
        rewrite (diff_mul_free _ 0.1 (within_ceiling_le _ _ _ default_cls (Hm CLS))).
        rewrite (diff_div_free _ 100 (within_ceiling_le _ _ _ default_fid (Hm FID))).
        rewrite (diff_div_free _ 200 (within_ceiling_le _ _ _ default_inp (Hm INP))).
        rewrite (diff_div_free _ 800 (within_ceiling_le _ _ _ default_ttfb (Hm TTFB))).
        reflexivity. }
      rewrite E1. apply fold_subtract_free.
      intros d Hd s'. apply in_map_iff in Hd. destruct Hd as [r [<- Hin]].
      unfold renderDifference. rewrite default_componentRenderTime.
      apply diff_div_free.
      apply (within_ceiling_le _ _ _ default_componentRenderTime).
      apply (proj1 (List.Forall_forall _ _) Hr), Hin. }
    unfold calculatePerformanceScore. rewrite E. reflexivity.
Qed.

Lemma score_in_range_and_full_at_ceilings_witness :
  calculatePerformanceScore metrics_at_ceilings = 100%Z.
Proof.
  apply (proj2 score_in_range_and_full_at_ceilings).
  - intros m q c Hq Hc. destruct m; vm_compute in Hq, Hc;
      injection Hq as <-; injection Hc as <-; vm_compute; discriminate.
  - repeat constructor. intros q c Hq Hc. vm_compute in Hq, Hc.
    injection Hq as <-; injection Hc as <-. vm_compute; discriminate.
Defined.

(** ** The score falls as a metric grows, and skips unknown metrics *)

Lemma penalty_mono (a b : Q) : a <= b -> penalty (Some a) <= penalty (Some b).
Proof.
  intro H. simpl.
  destruct (Qgtb a 0) eqn:Ea; destruct (Qgtb b 0) eqn:Eb;
    try apply Qgtb_true in Ea; try apply Qgtb_true in Eb;
    try apply Qgtb_false in Ea; try apply Qgtb_false in Eb; lra.
Qed.

Lemma penalty_diff_div_mono (v1 v2 c : value) (q1 q2 : Q) :
  ToNumber v1 = Some q1 -> ToNumber v2 = Some q2 -> q1 <= q2 ->
  penalty (diff_div v1 c) <= penalty (diff_div v2 c).
Proof.
  intros H1 H2 H. unfold diff_div, sub. rewrite H1, H2.
  destruct (ToNumber c) as [cq|]; simpl option_map; [|simpl; lra].
  apply penalty_mono. unfold Qdiv.
  apply Qmult_le_compat_r; [lra | discriminate].
Qed.

Lemma penalty_diff_mul_mono (v1 v2 c : value) (q1 q2 : Q) :
  ToNumber v1 = Some q1 -> ToNumber v2 = Some q2 -> q1 <= q2 ->
  penalty (diff_mul v1 c) <= penalty (diff_mul v2 c).
Proof.
  intros H1 H2 H. unfold diff_mul, sub. rewrite H1, H2.
  destruct (ToNumber c) as [cq|]; simpl option_map; [|simpl; lra].
  apply penalty_mono. lra.
Qed.

Lemma score_mono (pm1 pm2 : PerformanceMetrics) :
  Forall2 (fun d1 d2 => penalty d1 <= penalty d2)
          (metricDifferences pm1) (metricDifferences pm2) ->
  Forall2 (fun d1 d2 => penalty d1 <= penalty d2)
          (map renderDifference (componentRenderTimes pm1))
          (map renderDifference (componentRenderTimes pm2)) ->
  (calculatePerformanceScore pm2 <= calculatePerformanceScore pm1)%Z.
Proof.
  intros Hm Hr. unfold calculatePerformanceScore.
  apply Z.max_le_compat_l, Math_round_mono. unfold raw_score.
  apply fold_subtract_mono; [exact Hr|].
  apply fold_subtract_mono; [exact Hm | lra].
Qed.

Lemma scalar_mono (pm : PerformanceMetrics) (m : Metric) (v1 v2 : value) (q1 q2 : Q) :
  ToNumber v1 = Some q1 -> ToNumber v2 = Some q2 -> q1 <= q2 ->
  (calculatePerformanceScore (set_scalar m v2 pm)
   <= calculatePerformanceScore (set_scalar m v1 pm))%Z.
Proof.
  intros H1 H2 H. apply score_mono.
  - destruct m; unfold metricDifferences; simpl;
      repeat (constructor;
              [first [ apply (penalty_diff_div_mono _ _ _ _ _ H1 H2 H)
                     | apply (penalty_diff_mul_mono _ _ _ _ _ H1 H2 H)
                     | apply Qle_refl ] |]).
    all: constructor.
  - destruct m; simpl; apply Forall2_penalty_refl.
Qed.

Lemma render_mono (pm : PerformanceMetrics) (pre post : list ComponentRender)
  (n : string) (v1 v2 : value) (q1 q2 : Q) :
  ToNumber v1 = Some q1 -> ToNumber v2 = Some q2 -> q1 <= q2 ->
  (calculatePerformanceScore (set_renders (pre ++ mkRender n v2 :: post) pm)
   <= calculatePerformanceScore (set_renders (pre ++ mkRender n v1 :: post) pm))%Z.
Proof.
  intros H1 H2 H. apply score_mono.
  - apply Forall2_penalty_refl.
  - simpl. rewrite !map_app. simpl.
    apply Forall2_app; [apply Forall2_penalty_refl|].
    constructor; [|apply Forall2_penalty_refl].
    unfold renderDifference. simpl.
    apply (penalty_diff_div_mono _ _ _ _ _ H1 H2 H).
Qed.

Lemma ceiling_value (m : Metric) :
  ceiling m = VNum
    match m with
    | FCP => 2000 | LCP => 2500 | TTI => 3000 | CLS => 0.1
    | FID => 100 | INP => 200 | TTFB => 800
    end.
Proof. destruct m; vm_compute; reflexivity. Qed.

(** The difference the code computes for a metric, against the
    overage of the specification: an unknown value reads as 0, which is
    below every ceiling, so neither takes anything off. *)
Lemma overage_step (m : Metric) (v : value) (s : Q) :
  subtract_if_positive s
    (match m with
     | CLS => diff_mul v (ceiling m)
     | _ => diff_div v (ceiling m)
     end)
  = subtract_if_positive s (spec_overage m v).
Proof.
  unfold spec_overage. destruct (not_nullish v) eqn:E; [reflexivity|].
  rewrite ceiling_value.
  destruct v; try discriminate; destruct m; reflexivity.
Qed.

Lemma score_is_spec_score (pm : PerformanceMetrics) :
  calculatePerformanceScore pm = spec_score pm.
Proof.
  unfold calculatePerformanceScore, spec_score, raw_score. do 3 f_equal.
  unfold metricDifferences, all_metrics. simpl.
  rewrite <- (overage_step FCP), <- (overage_step LCP), <- (overage_step TTI),
    <- (overage_step CLS), <- (overage_step FID), <- (overage_step INP),
    <- (overage_step TTFB).
  reflexivity.
Qed.

Lemma spec_overage_unknown (m : Metric) (u : value) :
  not_nullish u = false -> spec_overage m u = None.
Proof. intro H. unfold spec_overage. rewrite H. reflexivity. Qed.

Lemma unknown_is_unknown (pm : PerformanceMetrics) (m : Metric) (u1 u2 : value) :
  not_nullish u1 = false -> not_nullish u2 = false ->
  calculatePerformanceScore (set_scalar m u1 pm)
  = calculatePerformanceScore (set_scalar m u2 pm).
Proof.
  intros H1 H2. rewrite !score_is_spec_score.
  unfold spec_score, all_metrics. simpl.
  destruct m; simpl;
    rewrite (spec_overage_unknown _ u1 H1), (spec_overage_unknown _ u2 H2);
    reflexivity.
Qed.

(** C4. [calculatePerformanceScore] does not rise when one scalar
    metric, or the [renderTime] of one render record, is replaced by a
    larger number and everything else is kept; it is the same for any
    two unknown values of a metric; and it is the score of the
    specification, which leaves unknown metrics out. *)
Theorem score_monotone_and_blind_to_unknown :
  (forall pm m v1 v2 q1 q2,
     ToNumber v1 = Some q1 -> ToNumber v2 = Some q2 -> q1 <= q2 ->
     (calculatePerformanceScore (set_scalar m v2 pm)
      <= calculatePerformanceScore (set_scalar m v1 pm))%Z) /\
  (forall pm pre post n v1 v2 q1 q2,
     ToNumber v1 = Some q1 -> ToNumber v2 = Some q2 -> q1 <= q2 ->
     (calculatePerformanceScore (set_renders (pre ++ mkRender n v2 :: post) pm)
      <= calculatePerformanceScore (set_renders (pre ++ mkRender n v1 :: post) pm))%Z) /\
  (forall pm m u1 u2,
     not_nullish u1 = false -> not_nullish u2 = false ->
     calculatePerformanceScore (set_scalar m u1 pm)
     = calculatePerformanceScore (set_scalar m u2 pm)) /\
  (forall pm, calculatePerformanceScore pm = spec_score pm).
Proof.
  repeat split.
  - apply scalar_mono.
  - apply render_mono.
  - apply unknown_is_unknown.
  - apply score_is_spec_score.
Qed.

Lemma score_monotone_and_blind_to_unknown_witness :
  (calculatePerformanceScore (set_scalar FCP (VStr "2600.00") metrics_at_ceilings)
   <= calculatePerformanceScore (set_scalar FCP (VStr "2300.00") metrics_at_ceilings))%Z
  /\
  (calculatePerformanceScore
     (set_renders ([] ++ mkRender "Widget" (VNum 734.567) :: []) metrics_at_ceilings)
   <= calculatePerformanceScore
     (set_renders ([] ++ mkRender "Widget" (VNum 520) :: []) metrics_at_ceilings))%Z
  /\
  calculatePerformanceScore (set_scalar LCP VNull metrics_at_ceilings)
  = calculatePerformanceScore (set_scalar LCP VUndefined metrics_at_ceilings).
Proof.
  destruct score_monotone_and_blind_to_unknown as [Hs [Hr [Hu _]]].
  split; [|split].
  - apply (Hs metrics_at_ceilings FCP (VStr "2300.00") (VStr "2600.00")
             (230000 # 100) (260000 # 100)).
    + vm_compute. reflexivity.
    + vm_compute. reflexivity.
    + vm_compute. discriminate.
  - apply (Hr metrics_at_ceilings [] [] "Widget" (VNum 520) (VNum 734.567) 520 734.567).
    + reflexivity.
    + reflexivity.
    + vm_compute. discriminate.
  - apply (Hu metrics_at_ceilings LCP VNull VUndefined); reflexivity.
Defined.

(** ** Feedback tiers *)

(** C5. For a score between 0 and 100 the feedback is the first entry
    of the ladder whose threshold the score reaches: excellent from 90
    up, good from 70 to 89, needs improvement below 70. *)
Theorem feedback_tier_ladder (score : Z) :
  (0 <= score <= 100)%Z ->
  ((90 <= score)%Z -> provideFeedback score = Some (mkMessage Excellent score)) /\
  ((70 <= score < 90)%Z -> provideFeedback score = Some (mkMessage Good score)) /\
  ((score < 70)%Z -> provideFeedback score = Some (mkMessage NeedsImprovement score)).
Proof.
  intros Hrange. unfold provideFeedback, feedbackMap. simpl.
  destruct (Z.leb_spec 90 score) as [H90|H90];
    destruct (Z.leb_spec 70 score) as [H70|H70];
    destruct (Z.leb_spec 0 score) as [H0|H0];
    simpl; repeat split; intros; try reflexivity; lia.
Qed.

Lemma feedback_tier_ladder_witness :
  provideFeedback 90 = Some (mkMessage Excellent 90) /\
  provideFeedback 89 = Some (mkMessage Good 89) /\
  provideFeedback 70 = Some (mkMessage Good 70) /\
  provideFeedback 69 = Some (mkMessage NeedsImprovement 69) /\
  provideFeedback 0 = Some (mkMessage NeedsImprovement 0).
Proof.
  split; [|split; [|split; [|split]]].
  - apply (proj1 (feedback_tier_ladder 90 ltac:(lia))). lia.
  - apply (proj1 (proj2 (feedback_tier_ladder 89 ltac:(lia)))). lia.
  - apply (proj1 (proj2 (feedback_tier_ladder 70 ltac:(lia)))). lia.
  - apply (proj2 (proj2 (feedback_tier_ladder 69 ltac:(lia)))). lia.
  - apply (proj2 (proj2 (feedback_tier_ladder 0 ltac:(lia)))). lia.
Defined.

(** ** Aggregation keeps the render records *)

Lemma merge_renders (vs : list value) (pm : PerformanceMetrics) :
  componentRenderTimes (merge vs pm) = componentRenderTimes pm.
Proof.
  unfold merge.
  do 8 (destruct vs as [|? vs]; [reflexivity|]). reflexivity.
Qed.

Lemma await_all_renders (events : list Event) :
  forall pm c out,
    componentRenderTimes (store (await_all pm c events out))
    = componentRenderTimes pm.
Proof.
  induction events as [|e rest IH]; intros pm c out; cbn [await_all].
  - destruct (Promise_all (promises c)); cbn [store];
      [reflexivity | apply merge_renders | reflexivity].
  - destruct (Promise_all (promises c)); cbn [store];
      [| apply merge_renders | reflexivity].
    destruct (deliver pm e c) as [c' o]. apply IH.
Qed.

Lemma getPerformanceMetrics_renders (h : Host) (events : list Event)
  (pm : PerformanceMetrics) :
  componentRenderTimes (store (getPerformanceMetrics h events pm))
  = componentRenderTimes pm.
Proof. apply await_all_renders. Qed.

(** C8. However often [getPerformanceMetrics] is run, in whatever host
    and with whatever events, and whether its promise is fulfilled,
    rejected or left pending, the sequence of render records of the
    store is the one it was before. *)
Theorem aggregation_keeps_render_records (calls : list (Host * list Event))
  (pm : PerformanceMetrics) :
  componentRenderTimes (aggregations calls pm) = componentRenderTimes pm.
Proof.
  revert pm. unfold aggregations.
  induction calls as [|[h events] calls IH]; intro pm; simpl.
  - reflexivity.
  - rewrite IH. apply getPerformanceMetrics_renders.
Qed.

(** ** trackComponentRender *)

(** C9. [trackComponentRender('Widget', 734.567)] returns at once, as
    a plain value, the record with name Widget whose render time is the
    2-decimal text "734.57": a string, which reads back as the number
    734.57.  It leaves the store with exactly one more record, at the
    end of the sequence: the one for Widget with the raw number
    734.567; the scalar fields are as they were. *)
Theorem track_widget (pm : PerformanceMetrics) :
  let '(pm', returned) := trackComponentRender "Widget" 734.567 pm in
  returned = mkRender "Widget" (VStr "734.57") /\
  (exists q, ToNumber (renderTime returned) = Some q /\ q == 734.57) /\
  componentRenderTimes pm'
  = componentRenderTimes pm ++ [mkRender "Widget" (VNum 734.567)] /\
  (exists r, name r = "Widget" /\
             componentRenderTimes pm' = componentRenderTimes pm ++ [r]) /\
  List.length (List.filter (fun r => String.eqb (name r) "Widget") (componentRenderTimes pm'))
  = S (List.length (List.filter (fun r => String.eqb (name r) "Widget") (componentRenderTimes pm))) /\
  (forall m, scalar m pm' = scalar m pm).
Proof.
  unfold trackComponentRender. rewrite toFixed_734.
  split; [reflexivity|]. split; [|split; [reflexivity|split; [|split]]].
  - exists (73457 # 100). split; [vm_compute; reflexivity | reflexivity].
  - exists (mkRender "Widget" (VNum 734.567)). split; reflexivity.
  - cbn [fst componentRenderTimes set_renders].
    rewrite List.filter_app, List.length_app. simpl. lia.
  - intro m. destruct m; reflexivity.
Qed.

(** The scenario of C9 as the specification words it fails: the record
    returned is not the one with the number 734.57, since its render
    time is the text "734.57" and no number at all. *)
Lemma returned_render_time_is_text :
  snd (trackComponentRender "Widget" 734.567 initialMetrics)
  = mkRender "Widget" (VStr "734.57") /\
  snd (trackComponentRender "Widget" 734.567 initialMetrics) <> spec_widget_record /\
  forall q, renderTime (snd (trackComponentRender "Widget" 734.567 initialMetrics)) <> VNum q.
Proof.
  assert (E : snd (trackComponentRender "Widget" 734.567 initialMetrics)
              = mkRender "Widget" (VStr "734.57")).
  { unfold trackComponentRender. cbn [snd]. rewrite toFixed_734. reflexivity. }
  rewrite E. split; [reflexivity|]. split.
  - unfold spec_widget_record. discriminate.
  - intro q. cbn [renderTime]. discriminate.
Qed.

(** ** Numerals: what [toFixed] prints reads back as a number *)

Section Numerals.

Local Open Scope N_scope.

Lemma digit_val_char (n : N) : digit_val (digit_char n) = Some (n mod 10).
Proof.
  unfold digit_val, digit_char.
  assert (Hlt : n mod 10 < 10) by (apply N.mod_lt; discriminate).
  generalize dependent (n mod 10). intros r Hlt.
  rewrite N_ascii_embedding by lia.
  replace (48 <=? 48 + r) with true by (symmetry; apply N.leb_le; lia).
  replace (48 + r <=? 57) with true by (symmetry; apply N.leb_le; lia).
  simpl. f_equal. lia.
Qed.

Lemma append_cons (x : ascii) (a b : string) :
  String x a +:+ b = String x (a +:+ b).
Proof. reflexivity. Qed.

Lemma append_assoc (a b c : string) : (a +:+ b) +:+ c = a +:+ (b +:+ c).
Proof.
  induction a as [|x a IH]; [reflexivity|].
  rewrite !append_cons. f_equal. exact IH.
Qed.

Lemma append_nil_r (a : string) : a +:+ "" = a.
Proof.
  induction a as [|x a IH]; [reflexivity|].
  rewrite append_cons. f_equal. exact IH.
Qed.

Lemma length_append (a b : string) :
  String.length (a +:+ b) = (String.length a + String.length b)%nat.
Proof.
  induction a as [|x a IH]; [reflexivity|].
  rewrite append_cons. simpl. f_equal. exact IH.
Qed.

Lemma parse_digits_app (s1 s2 : string) :
  forall a,
    parse_digits (s1 +:+ s2) a
    = match parse_digits s1 a with
      | Some b => parse_digits s2 b
      | None => None
      end.
Proof.
  induction s1 as [|c s1 IH]; intro a; [reflexivity|].
  rewrite append_cons. cbn [parse_digits].
  destruct (digit_val c); [apply IH | reflexivity].
Qed.

Lemma digits_aux_spec (fuel : nat) :
  forall n acc,
    n < 2 ^ N.of_nat fuel ->
    exists D,
      digits_aux fuel n acc = D +:+ acc /\
      (fuel <> O -> D <> "") /\
      forall a, parse_digits D a = Some (a * 10 ^ N.of_nat (String.length D) + n).
Proof.
  induction fuel as [|k IH]; intros n acc Hn.
  - exists "". simpl in *. split; [reflexivity|]. split; [congruence|].
    intro a. f_equal. lia.
  - cbn [digits_aux].
    destruct (N.eqb_spec (n / 10) 0) as [E|E].
    + exists (String (digit_char n) ""). split; [reflexivity|].
      split; [discriminate|].
      intro a. cbn [parse_digits]. rewrite digit_val_char. f_equal.
      assert (n < 10) by (apply N.div_small_iff in E; lia).
      rewrite N.mod_small by assumption. simpl String.length.
      change (10 ^ N.of_nat 1) with 10. lia.
    + assert (Hk : n / 10 < 2 ^ N.of_nat k).
      { apply N.Div0.div_lt_upper_bound.
        rewrite Nat2N.inj_succ, N.pow_succ_r' in Hn. lia. }
      destruct (IH (n / 10) (String (digit_char n) acc) Hk) as [D [HD [_ HP]]].
      exists (D +:+ String (digit_char n) ""). split; [|split].
      * rewrite HD, append_assoc. reflexivity.
      * destruct D; discriminate.
      * intro a. rewrite parse_digits_app, HP. cbn [parse_digits].
        rewrite digit_val_char. f_equal.
        rewrite length_append. simpl String.length.
        rewrite Nat2N.inj_add, N.pow_add_r. change (10 ^ N.of_nat 1) with 10.
        pose proof (N.div_mod n 10 ltac:(discriminate)). lia.
Qed.

Lemma decimal_digits_spec (n : N) :
  decimal_digits n <> "" /\
  forall a,
    parse_digits (decimal_digits n) a
    = Some (a * 10 ^ N.of_nat (String.length (decimal_digits n)) + n).
Proof.
  unfold decimal_digits.
  assert (Hn : n < 2 ^ N.of_nat (S (N.to_nat (N.log2 n)))).
  { rewrite Nat2N.inj_succ, N2Nat.id.
    destruct n as [|p]; [reflexivity|].
    apply N.log2_spec. reflexivity. }
  destruct (digits_aux_spec _ n "" Hn) as [D [HD [HN HP]]].
  rewrite HD.
  rewrite append_nil_r. split; [apply HN; discriminate | exact HP].
Qed.

Lemma parse_zeros (k : nat) :
  forall a, parse_digits (zeros k) a = Some (a * 10 ^ N.of_nat k).
Proof.
  induction k as [|k IH]; intro a.
  - simpl. f_equal. lia.
  - cbn [zeros parse_digits]. change (digit_val "0") with (Some 0).
    cbv beta iota. rewrite IH. f_equal. rewrite Nat2N.inj_succ, N.pow_succ_r'. lia.
Qed.

Lemma length_zeros (k : nat) : String.length (zeros k) = k.
Proof. induction k as [|k IH]; simpl; [reflexivity | f_equal; exact IH]. Qed.

Lemma substring_all (f : nat) :
  forall m, String.length m = f -> substring 0 f m = m.
Proof.
  induction f as [|f IH]; intros [|c m] Hm; try discriminate; cbn [substring].
  - reflexivity.
  - f_equal. apply IH. injection Hm as Hm. exact Hm.
Qed.

(** Cutting a string at [j]: the two [substring]s the printer takes. *)
Lemma substring_cut (j f : nat) :
  forall m,
    String.length m = (j + f)%nat ->
    m = substring 0 j m +:+ substring j f m /\
    String.length (substring 0 j m) = j /\
    String.length (substring j f m) = f.
Proof.
  induction j as [|j IH]; intros m Hm.
  - simpl in Hm. rewrite (substring_all f m Hm).
    destruct m; cbn [substring]; repeat split; assumption.
  - destruct m as [|c m]; [discriminate|].
    injection Hm as Hm. destruct (IH m Hm) as [E [L1 L2]].
    cbn [substring]. rewrite append_cons. repeat split.
    + f_equal. exact E.
    + simpl. f_equal. exact L1.
    + exact L2.
Qed.

Lemma toFixed_unfold (x : Q) (f : nat) :
  toFixed x f
  = (if Qgtb 0 x then "-" else "") +:+ toFixed_digits (toFixed_n x f) f.
Proof. reflexivity. Qed.

Lemma digit_is_no_mark (c : ascii) (d : N) :
  digit_val c = Some d ->
  Ascii.eqb c "." = false /\ Ascii.eqb c "-" = false /\ Ascii.eqb c "+" = false.
Proof.
  intro H. repeat split.
  - destruct (Ascii.eqb_spec c ".") as [->|]; [discriminate | reflexivity].
  - destruct (Ascii.eqb_spec c "-") as [->|]; [discriminate | reflexivity].
  - destruct (Ascii.eqb_spec c "+") as [->|]; [discriminate | reflexivity].
Qed.

Lemma split_point_digits (A rest : string) :
  forall a i,
    parse_digits A a = Some i ->
    split_point (A +:+ String "." rest) = (A, Some rest).
Proof.
  induction A as [|c A IH]; intros a i H.
  - reflexivity.
  - rewrite append_cons. cbn [split_point]. cbn [parse_digits] in H.
    destruct (digit_val c) as [d|] eqn:E; [|discriminate].
    destruct (digit_is_no_mark c d E) as [-> _].
    rewrite (IH _ _ H). reflexivity.
Qed.

Lemma split_point_no_point (A : string) :
  forall a i, parse_digits A a = Some i -> split_point A = (A, None).
Proof.
  induction A as [|c A IH]; intros a i H.
  - reflexivity.
  - cbn [split_point]. cbn [parse_digits] in H.
    destruct (digit_val c) as [d|] eqn:E; [|discriminate].
    destruct (digit_is_no_mark c d E) as [-> _].
    rewrite (IH _ _ H). reflexivity.
Qed.

(** The digits, padded with zeros to at least [f + 1] characters. *)
Lemma padded_digits (n : N) (f : nat) :
  let m0 := decimal_digits n in
  let m := if (String.length m0 <=? f)%nat
           then zeros (f + 1 - String.length m0) +:+ m0 else m0 in
  (f + 1 <= String.length m)%nat /\
  forall a, parse_digits m a = Some (a * 10 ^ N.of_nat (String.length m) + n).
Proof.
  intros m0 m. subst m.
  destruct (decimal_digits_spec n) as [_ HP]. fold m0 in HP.
  destruct (Nat.leb_spec (String.length m0) f) as [Hk|Hk].
  - rewrite length_append, length_zeros. split; [lia|].
    intro a. rewrite parse_digits_app, parse_zeros, HP. f_equal.
    rewrite Nat2N.inj_add, N.pow_add_r. lia.
  - split; [lia | exact HP].
Qed.

(** The printed digits read back as [n / 10^f], and start with a digit. *)
Lemma unsigned_decimal_toFixed_digits (n : N) (f : nat) :
  unsigned_decimal (toFixed_digits n f)
  = Some (Z.of_N n # Z.to_pos (10 ^ Z.of_nat f)) /\
  exists c rest d, toFixed_digits n f = String c rest /\ digit_val c = Some d.
Proof.
  unfold toFixed_digits.
  destruct (Nat.eqb_spec f 0) as [->|Hf].
  - destruct (decimal_digits_spec n) as [HN HP].
    destruct (decimal_digits n) as [|c rest] eqn:E; [congruence|].
    pose proof (HP 0%N) as H0. rewrite N.mul_0_l, N.add_0_l in H0.
    split.
    + unfold unsigned_decimal. rewrite (split_point_no_point _ _ _ H0).
      rewrite H0. reflexivity.
    + cbn [parse_digits] in H0. destruct (digit_val c) as [d|] eqn:Ed; [|discriminate].
      exists c, rest, d. split; [reflexivity | exact Ed].
  - destruct (padded_digits n f) as [Hlen HP]. cbv zeta in *.
    set (m := if (String.length (decimal_digits n) <=? f)%nat
              then zeros (f + 1 - String.length (decimal_digits n)) +:+ decimal_digits n
              else decimal_digits n) in *.
    destruct (substring_cut (String.length m - f) f m ltac:(lia)) as [Em [LA LB]].
    set (A := substring 0 (String.length m - f) m) in *.
    set (B := substring (String.length m - f) f m) in *.
    pose proof (HP 0%N) as H0. rewrite N.mul_0_l, N.add_0_l in H0.
    rewrite Em, parse_digits_app in H0.
    destruct (parse_digits A 0) as [i|] eqn:EA; [|discriminate].
    destruct A as [|c A']; [simpl in LA; lia|].
    split.
    + unfold unsigned_decimal. change ("." +:+ B) with (String "." B).
      rewrite (split_point_digits _ B _ _ EA), EA, H0, LB. reflexivity.
    + cbn [parse_digits] in EA. destruct (digit_val c) as [d|] eqn:Ed; [|discriminate].
      exists c, (A' +:+ "." +:+ B), d. split; [reflexivity | exact Ed].
Qed.

(** Printing a number with [toFixed] and reading the text back gives
    the number [toFixed] rounded to. *)
Lemma ToNumber_toFixed (x : Q) (f : nat) :
  ToNumber (VStr (toFixed x f)) = Some (toFixed_value x f).
Proof.
  unfold toFixed_value. rewrite toFixed_unfold. cbn [ToNumber].
  destruct (unsigned_decimal_toFixed_digits (toFixed_n x f) f)
    as [HU [c [rest [d [E Hd]]]]].
  destruct (Qgtb 0 x).
  - change ("-" +:+ toFixed_digits (toFixed_n x f) f)
      with (String "-" (toFixed_digits (toFixed_n x f) f)).
    cbn [StringToNumber]. change (Ascii.eqb "-" "-") with true. cbv iota.
    rewrite HU. reflexivity.
  - change ("" +:+ toFixed_digits (toFixed_n x f) f)
      with (toFixed_digits (toFixed_n x f) f).
    rewrite <- HU, E. cbn [StringToNumber].
    destruct (digit_is_no_mark c d Hd) as [_ [-> ->]]. reflexivity.
Qed.

End Numerals.

Lemma toFixed_value_nonneg (x : Q) (f : nat) : 0 <= x -> 0 <= toFixed_value x f.
Proof.
  intro Hx. unfold toFixed_value.
  replace (Qgtb 0 x) with false by (symmetry; apply Qgtb_false; exact Hx).
  unfold Qle. simpl. rewrite Z.mul_1_r. apply N2Z.is_nonneg.
Qed.

(** ** What the scalar fields hold *)

Lemma then_log_store {A} (r : Run A) (rest : PerformanceMetrics -> list Output) :
  store (then_log r rest) = store r.
Proof. unfold then_log. destruct (returned r); reflexivity. Qed.

Lemma runGamification_store (h : Host) (events : list Event) (pm : PerformanceMetrics) :
  store (runGamification h events pm) = store (getPerformanceMetrics h events pm).
Proof. apply then_log_store. Qed.

Lemma runPerformanceTracker_store (o : Options) (h : Host) (events : list Event)
  (pm : PerformanceMetrics) :
  store (runPerformanceTracker o h events pm)
  = if or_default true (trackMetrics o)
    then store (getPerformanceMetrics h events pm)
    else pm.
Proof.
  unfold runPerformanceTracker. rewrite then_log_store.
  destruct (or_default true (trackMetrics o)); [apply then_log_store | reflexivity].
Qed.

Lemma Promise_all_fulfilled (ps : list (Promise value)) :
  forall vs, Promise_all ps = Fulfilled vs -> ps = map Fulfilled vs.
Proof.
  induction ps as [|p ps IH]; intros vs H; simpl in H.
  - injection H as <-. reflexivity.
  - destruct p as [|v|e]; destruct (Promise_all ps) as [|ws|e'];
      try discriminate.
    injection H as <-. simpl. f_equal. apply IH. reflexivity.
Qed.

Lemma last_map_Some {A} (l : list A) (x : A) :
  List.last (map Some l) None = Some x -> In x l.
Proof.
  induction l as [|a l IH]; simpl; [discriminate|].
  destruct l as [|b l].
  - simpl. intro H. injection H as ->. left. reflexivity.
  - intro H. right. apply IH. exact H.
Qed.

Section FieldInvariant.

Variable good : Q -> Prop.
Hypothesis good_0 : good 0.
Hypothesis good_add : forall a b, good a -> good b -> good (a + b).

Lemma resolve_ok (m : Metric) (v : value) (p : Promise value) :
  field_ok good m v -> promise_ok good m p -> promise_ok good m (resolve v p).
Proof. intros Hv Hp. destruct p; simpl; assumption. Qed.

Lemma initialMetrics_ok : store_ok good initialMetrics.
Proof. intro m. destruct m; simpl; constructor. reflexivity. Qed.

Lemma start_cycle_ok (h : Host) : host_ok good h -> cycle_ok good (start_cycle h).
Proof.
  intros [Hnow Httfb]. unfold cycle_ok, start_cycle. cbn [c_fcp c_tti c_lcp c_cls c_fid c_inp c_ttfb].
  unfold trackFirstContentfulPaint, trackTimeToInteractive, trackLargestContentfulPaint,
    trackCumulativeLayoutShift, trackFirstInputDelay, trackInteractionToNextPaint,
    trackTimeToFirstByte.
  destruct (supported h), (has_window h), (has_document h), (readyState_complete h),
    (has_performance h), (has_timing h); simpl;
    repeat split; try exact I; try apply field_unknown;
    first [ apply (field_text good TTI); exact Hnow
          | apply (field_text good TTFB); exact Httfb ].
Qed.

Lemma onFirstContentfulPaint_ok (e : Event) (c : Call) :
  event_ok good e -> promise_ok good FCP (promise c) ->
  promise_ok good FCP (promise (fst (onFirstContentfulPaint e c))).
Proof.
  intros He Hc. destruct e; simpl; try exact Hc.
  destruct (attached c); [|exact Hc].
  destruct (find _ entries) as [entry|] eqn:E; [|exact Hc].
  simpl. apply resolve_ok; [|exact Hc].
  apply (field_text good FCP).
  apply find_some in E. destruct E as [Hin _].
  apply (proj1 (List.Forall_forall _ _) He), Hin.
Qed.

Lemma onTimeToInteractive_ok (e : Event) (c : Call) :
  event_ok good e -> promise_ok good TTI (promise c) ->
  promise_ok good TTI (promise (fst (onTimeToInteractive e c))).
Proof.
  intros He Hc. destruct e; simpl; try exact Hc.
  - destruct (attached c); [|exact Hc].
    simpl. apply resolve_ok; [|exact Hc]. apply (field_text good TTI). exact He.
  - destruct (attached c); exact Hc.
Qed.

Lemma onLargestContentfulPaint_ok (e : Event) (c : Call) :
  event_ok good e -> promise_ok good LCP (promise c) ->
  promise_ok good LCP (promise (fst (onLargestContentfulPaint e c))).
Proof.
  intros He Hc. destruct e; simpl; try exact Hc.
  destruct (attached c); [|exact Hc].
  destruct (List.last _ None) as [startTime|] eqn:E; [|exact Hc].
  simpl. apply resolve_ok; [|exact Hc]. apply (field_text good LCP).
  apply last_map_Some in E.
  apply (proj1 (List.Forall_forall _ _) He), E.
Qed.

Lemma fold_add_shift_good (entries : list LayoutShift) :
  Forall (fun s => good (shift_value s)) entries ->
  forall clsValue, good clsValue -> good (fold_left add_shift entries clsValue).
Proof.
  induction 1 as [|entry entries Hentry _ IH]; intros clsValue Hcls; simpl.
  - exact Hcls.
  - apply IH. unfold add_shift.
    destruct (negb (hadRecentInput entry) && negb (Qeq_bool (shift_value entry) 0));
      [apply good_add; assumption | exact Hcls].
Qed.

Lemma onCumulativeLayoutShift_ok (e : Event) (c : Call) :
  event_ok good e -> promise_ok good CLS (promise c) ->
  promise_ok good CLS (promise (fst (onCumulativeLayoutShift e c))).
Proof.
  intros He Hc. destruct e; simpl; try exact Hc.
  destruct (attached c); [|exact Hc].
  simpl. apply resolve_ok; [|exact Hc]. apply (field_text good CLS).
  apply fold_add_shift_good; [exact He | exact good_0].
Qed.

Lemma onFirstInputDelay_ok (pm : PerformanceMetrics) (e : Event) (c : Call) :
  event_ok good e -> promise_ok good FID (promise c) ->
  promise_ok good FID (promise (fst (onFirstInputDelay pm e c))).
Proof.
  intros He Hc. destruct e; simpl; try exact Hc.
  - destruct (attached c); [|exact Hc].
    destruct entries as [|firstEntry rest]; [exact Hc|].
    simpl. apply resolve_ok; [|exact Hc]. apply (field_text good FID).
    inversion He; assumption.
  - destruct (timer c); [|exact Hc].
    destruct (is_null (firstInputDelay pm)); [|exact Hc].
    simpl. apply resolve_ok; [apply field_unknown | exact Hc].
Qed.

Lemma onInteractionToNextPaint_ok (e : Event) (c : Call) :
  event_ok good e -> promise_ok good INP (promise c) ->
  promise_ok good INP (promise (fst (onInteractionToNextPaint e c))).
Proof.
  intros He Hc. destruct e; simpl; try exact Hc.
  - destruct (attached c); [|exact Hc].
    simpl. apply resolve_ok; [|exact Hc]. apply (field_text good INP). exact He.
  - destruct (timer c); [|exact Hc].
    destruct (interactionOccurred c); simpl; [exact Hc|].
    apply resolve_ok; [apply field_unknown | exact Hc].
  - destruct (attached c); exact Hc.
Qed.

Lemma deliver_ok (pm : PerformanceMetrics) (e : Event) (c : Cycle) :
  event_ok good e -> cycle_ok good c -> cycle_ok good (fst (deliver pm e c)).
Proof.
  intros He (H1 & H2 & H3 & H4 & H5 & H6 & H7). unfold deliver.
  pose proof (onFirstContentfulPaint_ok e _ He H1) as K1.
  pose proof (onTimeToInteractive_ok e _ He H2) as K2.
  pose proof (onLargestContentfulPaint_ok e _ He H3) as K3.
  pose proof (onCumulativeLayoutShift_ok e _ He H4) as K4.
  pose proof (onFirstInputDelay_ok pm e _ He H5) as K5.
  pose proof (onInteractionToNextPaint_ok e _ He H6) as K6.
  destruct (onFirstContentfulPaint e (c_fcp c)), (onTimeToInteractive e (c_tti c)),
    (onLargestContentfulPaint e (c_lcp c)), (onCumulativeLayoutShift e (c_cls c)),
    (onFirstInputDelay pm e (c_fid c)), (onInteractionToNextPaint e (c_inp c)).
  repeat split; assumption.
Qed.

Lemma merge_ok (c : Cycle) (vs : list value) (pm : PerformanceMetrics) :
  cycle_ok good c -> Promise_all (promises c) = Fulfilled vs ->
  store_ok good (merge vs pm).
Proof.
  intros (H1 & H2 & H3 & H4 & H5 & H6 & H7) E.
  apply Promise_all_fulfilled in E. unfold promises in E.
  do 7 (destruct vs as [|? vs]; [discriminate|]).
  destruct vs; [|discriminate].
  injection E as E1 E2 E3 E4 E5 E6 E7.
  rewrite E1 in H1. rewrite E2 in H2. rewrite E3 in H3. rewrite E4 in H4.
  rewrite E5 in H5. rewrite E6 in H6. rewrite E7 in H7.
  intro m. destruct m; assumption.
Qed.

Lemma await_all_ok (events : list Event) :
  forall pm c out,
    store_ok good pm -> cycle_ok good c -> Forall (event_ok good) events ->
    store_ok good (store (await_all pm c events out)).
Proof.
  induction events as [|e rest IH]; intros pm c out Hpm Hc He; cbn [await_all].
  - destruct (Promise_all (promises c)) eqn:E; cbn [store];
      [exact Hpm | apply (merge_ok c); assumption | exact Hpm].
  - destruct (Promise_all (promises c)) eqn:E; cbn [store];
      [| apply (merge_ok c); assumption | exact Hpm].
    inversion He as [|? ? He1 He2]; subst.
    pose proof (deliver_ok pm e c He1 Hc) as K.
    destruct (deliver pm e c) as [c' o]. apply IH; assumption.
Qed.

Lemma getPerformanceMetrics_ok (h : Host) (events : list Event) (pm : PerformanceMetrics) :
  host_ok good h -> Forall (event_ok good) events -> store_ok good pm ->
  store_ok good (store (getPerformanceMetrics h events pm)).
Proof.
  intros Hh He Hpm. apply await_all_ok; [exact Hpm | apply start_cycle_ok, Hh | exact He].
Qed.

Lemma step_ok (pm : PerformanceMetrics) (op : Op) :
  op_ok good op -> store_ok good pm -> store_ok good (step pm op).
Proof.
  intros Hop Hpm. destruct op; cbn [step].
  - intro m. specialize (Hpm m). destruct m; exact Hpm.
  - destruct Hop. apply getPerformanceMetrics_ok; assumption.
  - destruct Hop. rewrite runGamification_store.
    apply getPerformanceMetrics_ok; assumption.
  - destruct Hop. rewrite runPerformanceTracker_store.
    destruct (or_default true (trackMetrics options));
      [apply getPerformanceMetrics_ok; assumption | exact Hpm].
  - exact Hpm.
  - exact Hpm.
Qed.

Lemma session_ok (ops : list Op) :
  Forall (op_ok good) ops -> store_ok good (session ops).
Proof.
  unfold session. generalize initialMetrics_ok. generalize initialMetrics.
  induction ops as [|op ops IH]; intros pm Hpm Hops; simpl.
  - exact Hpm.
  - inversion Hops; subst. apply IH; [apply step_ok|]; assumption.
Qed.

End FieldInvariant.

Lemma any_op_ok (op : Op) : op_ok any_reading op.
Proof.
  assert (He : forall events, Forall (event_ok any_reading) events).
  { intro events. apply List.Forall_forall. intros e _.
    destruct e; simpl; try exact I; apply List.Forall_forall; intros; exact I. }
  destruct op; simpl; try exact I; (split; [split; exact I | apply He]).
Qed.

(** C6. At every point of a session each scalar field holds null, the
    number 0 the layout-shift field starts with, or the very text
    [toFixed] printed for a reading (2 decimals, 4 for layout shift):
    the printed text is what is stored.  When no reading of the hosts
    and events of the session is negative, no printed reading is; and
    such a field reads back, as a number, as one that is not negative. *)
Theorem scalar_fields_hold_null_or_printed_text :
  (forall ops m, field_ok any_reading m (scalar m (session ops))) /\
  (forall ops m,
     Forall (op_ok nonneg_reading) ops ->
     field_ok nonneg_reading m (scalar m (session ops))) /\
  (forall m v,
     field_ok nonneg_reading m v -> exists q, ToNumber v = Some q /\ 0 <= q).
Proof.
  split; [|split].
  - intros ops m.
    apply (session_ok any_reading I (fun _ _ _ _ => I)).
    apply List.Forall_forall. intros op _. apply any_op_ok.
  - intros ops m Hops.
    apply (session_ok nonneg_reading); [unfold nonneg_reading; lra | | exact Hops].
    unfold nonneg_reading. intros a b Ha Hb. lra.
  - intros m v [| _ |x Hx].
    + exists 0. split; [reflexivity | lra].
    + exists 0. split; [reflexivity | lra].
    + exists (toFixed_value x (decimals m)). split.
      * apply ToNumber_toFixed.
      * apply toFixed_value_nonneg, Hx.
Qed.

Lemma scalar_fields_hold_null_or_printed_text_witness :
  field_ok nonneg_reading TTFB
    (scalar TTFB (session [CallTrackComponentRender "Widget" 734.567;
                           CallGetPerformanceMetrics browser_host full_trace])) /\
  exists q,
    ToNumber (scalar TTFB (session [CallGetPerformanceMetrics browser_host full_trace]))
    = Some q /\ 0 <= q.
Proof.
  destruct scalar_fields_hold_null_or_printed_text as [_ [Hn Hq]].
  assert (Hh : host_ok nonneg_reading browser_host).
  { split; vm_compute; discriminate. }
  assert (He : Forall (event_ok nonneg_reading) full_trace).
  { repeat constructor; vm_compute; discriminate. }
  split.
  - apply Hn. constructor; [exact I|].
    constructor; [split; assumption | constructor].
  - apply (Hq TTFB). apply Hn.
    constructor; [split; assumption | constructor].
Defined.

(** The specification's reading of C6 fails: after one aggregation in a
    browser the byte-latency field is the text "300.00" and no number;
    and with timing readings in which the response starts before the
    request it is the text "-100.00", which reads back as a negative
    number. *)
Lemma stored_field_is_text_and_can_be_negative :
  (scalar TTFB (session [CallGetPerformanceMetrics browser_host full_trace])
   = VStr "300.00" /\
   ~ spec_field (scalar TTFB (session [CallGetPerformanceMetrics browser_host full_trace])))
  /\
  (scalar TTFB (session [CallGetPerformanceMetrics skewed_host full_trace])
   = VStr "-100.00" /\
   exists q, ToNumber (VStr "-100.00") = Some q /\ q < 0).
Proof.
  assert (E : scalar TTFB (session [CallGetPerformanceMetrics browser_host full_trace])
              = VStr "300.00") by (vm_compute; reflexivity).
  split; [split|split].
  - exact E.
  - rewrite E. intros [H|[q [H _]]]; discriminate.
  - vm_compute. reflexivity.
  - eexists. split; [vm_compute; reflexivity | reflexivity].
Qed.

(** ** Alerts *)

Lemma check_scalar_In (m m' : Metric) (pm : PerformanceMetrics) (t o t' : value) :
  In (Exceeded m o t') (check_scalar m' pm t) ->
  m = m' /\ not_nullish (scalar m pm) && gt (scalar m pm) t = true.
Proof.
  unfold check_scalar.
  destruct (not_nullish (scalar m' pm) && gt (scalar m' pm) t) eqn:E; simpl.
  - intros [H|[]]. injection H as <- _ _. split; [reflexivity | exact E].
  - intros [].
Qed.

Lemma check_scalar_alerts (m : Metric) (pm : PerformanceMetrics) (t : value) :
  not_nullish (scalar m pm) && gt (scalar m pm) t = true ->
  In (Exceeded m (scalar m pm) t) (check_scalar m pm t).
Proof. intro H. unfold check_scalar. rewrite H. left. reflexivity. Qed.

Lemma check_render_not_scalar (m : Metric) (o t t' : value) (rs : list ComponentRender) :
  ~ In (Exceeded m o t) (flat_map (check_render t') rs).
Proof.
  intro H. apply in_flat_map in H. destruct H as [r [_ H]].
  unfold check_render in H. destruct (gt (renderTime r) t'); simpl in H.
  - destruct H as [H|[]]. discriminate.
  - destruct H.
Qed.

(** The alert test of the code, for whatever object the thresholds are
    read from. *)
Lemma alerted_iff (a : ThresholdsArg) (pm : PerformanceMetrics) (m : Metric) :
  alerted m (checkPerformanceAlerts a pm) <->
  not_nullish (scalar m pm)
  && gt (scalar m pm) (prop (alert_source a) (threshold_key m)) = true.
Proof.
  unfold alerted, checkPerformanceAlerts. cbv zeta. split.
  - intros [o [t H]]. rewrite !in_app_iff in H.
    destruct H as [H|[H|[H|[H|[H|[H|[H|H]]]]]]];
      try (apply check_scalar_In in H; destruct H as [-> H]; exact H).
    exfalso. exact (check_render_not_scalar _ _ _ _ _ H).
  - intro H.
    exists (scalar m pm), (prop (alert_source a) (threshold_key m)).
    rewrite !in_app_iff.
    destruct m; cbn [threshold_key] in *;
      [ left | do 1 right; left | do 2 right; left | do 3 right; left
      | do 4 right; left | do 5 right; left | do 6 right; left ];
      apply check_scalar_alerts; exact H.
Qed.

Lemma gt_undefined (v : value) : gt v VUndefined = false.
Proof. destruct v; simpl; try reflexivity. destruct (StringToNumber s); reflexivity. Qed.

Lemma prop_absent (T : Thresholds) (k : string) : T !! k = None -> prop T k = VUndefined.
Proof. intro H. unfold prop. rewrite H. reflexivity. Qed.

(** C1. [checkPerformanceAlerts(T)] warns about a metric exactly when
    its value is not null and is above the entry T itself has for the
    metric.  A key that T lacks reads as undefined, above which nothing
    is: the default is not consulted, and there is no warning for that
    metric.  With a first contentful paint of "2500.00" stored and T
    empty, or the argument left out, nothing is warned about, where the
    specification resolves the ceiling 2000 and asks for a warning. *)
Theorem alerts_read_the_given_thresholds_only :
  (forall T pm m,
     alerted m (checkPerformanceAlerts (ArgObject T) pm) <->
     not_nullish (scalar m pm) && gt (scalar m pm) (prop T (threshold_key m)) = true) /\
  (forall T pm m,
     T !! threshold_key m = None ->
     ~ alerted m (checkPerformanceAlerts (ArgObject T) pm)) /\
  (let pm := set_scalar FCP (VStr "2500.00") initialMetrics in
   spec_alerts ∅ pm FCP = true /\
   checkPerformanceAlerts (ArgObject ∅) pm = [] /\
   checkPerformanceAlerts ArgOmitted pm = []).
Proof.
  split; [|split].
  - intros T pm m. apply (alerted_iff (ArgObject T)).
  - intros T pm m HT H. apply (alerted_iff (ArgObject T)) in H.
    cbn [alert_source] in H. rewrite (prop_absent _ _ HT), gt_undefined in H.
    rewrite andb_false_r in H. discriminate.
  - cbv zeta. repeat split; vm_compute; reflexivity.
Qed.

Lemma alerts_read_the_given_thresholds_only_witness :
  spec_alerts (<["lcp" := VNum 4000]> ∅)
    (set_scalar FCP (VStr "2500.00") initialMetrics) FCP = true /\
  ~ alerted FCP
      (checkPerformanceAlerts (ArgObject (<["lcp" := VNum 4000]> ∅))
         (set_scalar FCP (VStr "2500.00") initialMetrics)).
Proof.
  split.
  - vm_compute. reflexivity.
  - apply (proj1 (proj2 alerts_read_the_given_thresholds_only)).
    vm_compute. reflexivity.
Defined.

(** ** Collectors in a host that lacks what they need *)

Lemma await_all_rejected (pm : PerformanceMetrics) (c : Cycle) (events : list Event)
  (out : list Output) (e : Exception) :
  Promise_all (promises c) = Rejected e ->
  await_all pm c events out = mkRun (Rejected e) pm out.
Proof. intro H. destruct events; cbn [await_all]; rewrite H; reflexivity. Qed.

(** C2. Without [PerformanceObserver] the four observer collectors are
    settled with null at once, and without a window so are the
    interactive-time and byte-latency collectors.  The interaction
    collector is not: without a window its executor throws, its promise
    is rejected with a ReferenceError, and with it the aggregation. *)
Theorem collectors_in_unsupported_host (h : Host) :
  (supported h = false ->
     trackFirstContentfulPaint h = settled_now VNull /\
     trackLargestContentfulPaint h = settled_now VNull /\
     trackCumulativeLayoutShift h = settled_now VNull /\
     trackFirstInputDelay h = settled_now VNull) /\
  (has_window h = false ->
     trackTimeToInteractive h = settled_now VNull /\
     trackTimeToFirstByte h = settled_now VNull /\
     promise (trackInteractionToNextPaint h) = Rejected (ReferenceError "window") /\
     forall events pm,
       getPerformanceMetrics h events pm
       = mkRun (Rejected (ReferenceError "window")) pm []).
Proof.
  split.
  - intro H. unfold trackFirstContentfulPaint, trackLargestContentfulPaint,
      trackCumulativeLayoutShift, trackFirstInputDelay. rewrite H. repeat split.
  - intro H.
    unfold trackTimeToInteractive, trackTimeToFirstByte, trackInteractionToNextPaint.
    rewrite H. repeat split.
    intros events pm. unfold getPerformanceMetrics. apply await_all_rejected.
    unfold promises, start_cycle. cbn [c_fcp c_tti c_lcp c_cls c_fid c_inp c_ttfb].
    unfold trackFirstContentfulPaint, trackLargestContentfulPaint,
      trackCumulativeLayoutShift, trackFirstInputDelay, trackTimeToInteractive,
      trackTimeToFirstByte, trackInteractionToNextPaint, supported.
    rewrite H. reflexivity.
Qed.

Lemma collectors_in_unsupported_host_witness :
  promise (trackInteractionToNextPaint server_host) = Rejected (ReferenceError "window") /\
  trackFirstInputDelay server_host = settled_now VNull /\
  getPerformanceMetrics server_host idle_trace initialMetrics
  = mkRun (Rejected (ReferenceError "window")) initialMetrics [].
Proof.
  destruct (collectors_in_unsupported_host server_host) as [Hs Hw].
  destruct (Hs eq_refl) as (_ & _ & _ & Hfid).
  destruct (Hw eq_refl) as (_ & _ & Hinp & Hall).
  split; [exact Hinp | split; [exact Hfid | apply Hall]].
Defined.

(** ** The five-second fallbacks *)

(** C7. When its timer fires with no click seen, a call of the
    interaction collector is settled with null and warns, on every
    call.  A call of the input-delay collector does so only while the
    stored [firstInputDelay] is null: its timer tests the shared store,
    and not whether this call saw an input.  Once an earlier aggregation
    has stored a value there, the timer of a later call settles nothing
    and warns about nothing, and the promise is left pending. *)
Theorem timer_of_input_delay_tests_the_store (h : Host) (pm : PerformanceMetrics) :
  (has_window h = true ->
     onInteractionToNextPaint InpTimer (trackInteractionToNextPaint h)
     = (mkCall (Fulfilled VNull) true false false, [Warn NoInteraction])) /\
  (supported h = true -> firstInputDelay pm = VNull ->
     onFirstInputDelay pm FidTimer (trackFirstInputDelay h)
     = (mkCall (Fulfilled VNull) true false false, [Warn NoFirstInputDelay])) /\
  (supported h = true -> is_null (firstInputDelay pm) = false ->
     onFirstInputDelay pm FidTimer (trackFirstInputDelay h)
     = (mkCall Pending true false false, [])).
Proof.
  split; [|split].
  - intro H. unfold trackInteractionToNextPaint. rewrite H. reflexivity.
  - intros H Hpm. unfold trackFirstInputDelay. rewrite H.
    cbn. rewrite Hpm. reflexivity.
  - intros H Hpm. unfold trackFirstInputDelay. rewrite H.
    cbn. rewrite Hpm. reflexivity.
Qed.

Lemma timer_of_input_delay_tests_the_store_witness :
  onInteractionToNextPaint InpTimer (trackInteractionToNextPaint browser_host)
  = (mkCall (Fulfilled VNull) true false false, [Warn NoInteraction]) /\
  onFirstInputDelay initialMetrics FidTimer (trackFirstInputDelay browser_host)
  = (mkCall (Fulfilled VNull) true false false, [Warn NoFirstInputDelay]) /\
  onFirstInputDelay (session [CallGetPerformanceMetrics browser_host full_trace])
    FidTimer (trackFirstInputDelay browser_host)
  = (mkCall Pending true false false, []).
Proof.
  pose (pm := session [CallGetPerformanceMetrics browser_host full_trace]).
  destruct (timer_of_input_delay_tests_the_store browser_host initialMetrics)
    as [Hinp [Hfid _]].
  destruct (timer_of_input_delay_tests_the_store browser_host pm) as [_ [_ Hstuck]].
  split; [|split].
  - apply Hinp. reflexivity.
  - apply Hfid; reflexivity.
  - apply Hstuck; vm_compute; reflexivity.
Defined.

(** ** The stored render record is the raw one *)

Example toFixed_500 : JS.toFixed 500.004 2 = "500.00".
Proof. vm_compute. reflexivity. Qed.

(** C10. [trackComponentRender(name, renderTime)] appends the record
    with the number it was given and returns a record with the
    2-decimal text.  The alerts and the score read the stored record:
    the call adds the alert test and the penalty of the raw number.  A
    render time of 500.004 is above the ceiling 500 and is warned
    about, where its text "500.00" would not be. *)
Theorem stored_render_is_raw_returned_is_text (n : string) (rt : Q)
  (pm : PerformanceMetrics) :
  let '(pm', returned) := trackComponentRender n rt pm in
  componentRenderTimes pm' = componentRenderTimes pm ++ [mkRender n (VNum rt)] /\
  returned = mkRender n (VStr (toFixed rt 2)) /\
  (forall a,
     checkPerformanceAlerts a pm'
     = checkPerformanceAlerts a pm
       ++ check_render (prop (alert_source a) "componentRenderTime")
            (mkRender n (VNum rt))) /\
  raw_score pm' = subtract_if_positive (raw_score pm) (Some ((rt - 500) / 100)) /\
  check_render (VNum 500) (mkRender n (VNum 500.004))
  = [ComponentExceeded n (VNum 500.004) (VNum 500)] /\
  check_render (VNum 500) (mkRender n (VStr (toFixed 500.004 2))) = [].
Proof.
  unfold trackComponentRender.
  split; [reflexivity|]. split; [reflexivity|]. split; [|split; [|split]].
  - intro a. unfold checkPerformanceAlerts. cbv zeta.
    cbn [componentRenderTimes set_renders].
    rewrite flat_map_app. cbn [flat_map]. rewrite app_nil_r.
    unfold check_scalar.
    cbn [scalar set_renders firstContentfulPaint timeToInteractive
           largestContentfulPaint cumulativeLayoutShift firstInputDelay
           interactionToNextPaint timeToFirstByte].
    repeat rewrite <- List.app_assoc. reflexivity.
  - unfold raw_score. cbn [componentRenderTimes set_renders].
    rewrite map_app, fold_left_app. cbn [map fold_left].
    unfold renderDifference at 2. cbn [renderTime].
    rewrite default_componentRenderTime. reflexivity.
  - reflexivity.
  - rewrite toFixed_500. reflexivity.
Qed.

(** * Further properties of the code *)

(** ** What reaches the console during an aggregation *)

Lemma handler_notes (pm : PerformanceMetrics) (e : Event) (c : Call) :
  Forall collector_note (snd (onFirstContentfulPaint e c)) /\
  Forall collector_note (snd (onTimeToInteractive e c)) /\
  Forall collector_note (snd (onLargestContentfulPaint e c)) /\
  Forall collector_note (snd (onCumulativeLayoutShift e c)) /\
  Forall collector_note (snd (onFirstInputDelay pm e c)) /\
  Forall collector_note (snd (onInteractionToNextPaint e c)).
Proof.
  unfold onFirstContentfulPaint, onTimeToInteractive, onLargestContentfulPaint,
    onCumulativeLayoutShift, onFirstInputDelay, onInteractionToNextPaint.
  repeat split; destruct e; cbn [snd]; try constructor;
    repeat (match goal with
            | |- context [if ?b then _ else _] => destruct b
            | |- context [match ?x with _ => _ end] => destruct x
            end; cbn [snd]);
    repeat constructor.
Qed.

Lemma deliver_notes (pm : PerformanceMetrics) (e : Event) (c : Cycle) :
  Forall collector_note (snd (deliver pm e c)).
Proof.
  unfold deliver.
  destruct (handler_notes pm e (c_fcp c)) as (H1 & _).
  destruct (handler_notes pm e (c_tti c)) as (_ & H2 & _).
  destruct (handler_notes pm e (c_lcp c)) as (_ & _ & H3 & _).
  destruct (handler_notes pm e (c_cls c)) as (_ & _ & _ & H4 & _).
  destruct (handler_notes pm e (c_fid c)) as (_ & _ & _ & _ & H5 & _).
  destruct (handler_notes pm e (c_inp c)) as (_ & _ & _ & _ & _ & H6).
  destruct (onFirstContentfulPaint e (c_fcp c)), (onTimeToInteractive e (c_tti c)),
    (onLargestContentfulPaint e (c_lcp c)), (onCumulativeLayoutShift e (c_cls c)),
    (onFirstInputDelay pm e (c_fid c)), (onInteractionToNextPaint e (c_inp c)).
  cbn [snd] in *. repeat (apply Forall_app; split); assumption.
Qed.

Lemma await_all_notes (events : list Event) :
  forall pm c out,
    Forall collector_note out ->
    Forall collector_note (output (await_all pm c events out)).
Proof.
  induction events as [|e rest IH]; intros pm c out Hout; cbn [await_all];
    destruct (Promise_all (promises c)); cbn [output]; try exact Hout.
  pose proof (deliver_notes pm e c) as K.
  destruct (deliver pm e c) as [c' o]. apply IH.
  apply Forall_app. split; assumption.
Qed.

Lemma getPerformanceMetrics_notes (h : Host) (events : list Event)
  (pm : PerformanceMetrics) :
  Forall collector_note (output (getPerformanceMetrics h events pm)).
Proof. apply await_all_notes. constructor. Qed.

(** ** Alerts against merged thresholds *)

Lemma merged_threshold (T : Thresholds) (k : string) :
  prop (spread defaultThresholds T) k = spec_resolve T k.
Proof.
  unfold spec_resolve, spread, prop. rewrite lookup_union.
  destruct (T !! k); destruct (defaultThresholds !! k); reflexivity.
Qed.

Lemma then_log_fulfilled {A} (r : Run A) (rest : PerformanceMetrics -> list Output) :
  returned (then_log r rest) = Fulfilled tt ->
  (exists v, returned r = Fulfilled v) /\
  output (then_log r rest) = output r ++ rest (store r).
Proof.
  unfold then_log. destruct (returned r) as [|v|e]; cbn [returned output];
    try discriminate.
  intros _. split; [exists v; reflexivity | reflexivity].
Qed.

Lemma then_log_unfulfilled {A} (r : Run A) (rest : PerformanceMetrics -> list Output) :
  (forall v, returned r <> Fulfilled v) ->
  output (then_log r rest) = output r /\
  forall u, returned (then_log r rest) <> Fulfilled u.
Proof.
  unfold then_log. intro H. destruct (returned r) as [|v|e]; cbn [returned output].
  - split; [reflexivity | discriminate].
  - exfalso. apply (H v). reflexivity.
  - split; [reflexivity | discriminate].
Qed.

(** The console of a fulfilled [runPerformanceTracker]: what the
    aggregation left and the logged snapshot, then the alerts against
    the merged thresholds, then the feedback. *)
Lemma runPerformanceTracker_fulfilled (o : Options) (h : Host) (events : list Event)
  (pm : PerformanceMetrics) :
  let r := runPerformanceTracker o h events pm in
  returned r = Fulfilled tt ->
  exists pre,
    Forall (fun x => collector_note x \/ exists pm', x = LogMetrics pm') pre /\
    output r
    = pre
      ++ (if or_default true (showAlerts o)
          then map Warn (checkPerformanceAlerts
                           (ArgObject (spread defaultThresholds (or_default ∅ (thresholds o))))
                           (store r))
          else [])
      ++ (if or_default true (enableGamification o) then gamify (store r) else []).
Proof.
  cbv zeta. unfold runPerformanceTracker. cbv zeta.
  set (tr := if or_default true (trackMetrics o)
             then then_log (getPerformanceMetrics h events pm) (fun pm' => [LogMetrics pm'])
             else mkRun (Fulfilled tt) pm []).
  intro Hr. destruct (then_log_fulfilled _ _ Hr) as [[v Hv] Eout].
  rewrite Eout, then_log_store. exists (output tr). split; [|reflexivity].
  subst tr. destruct (or_default true (trackMetrics o)).
  - destruct v. destruct (then_log_fulfilled _ _ Hv) as [_ E]. rewrite E.
    apply Forall_app. split.
    + eapply List.Forall_impl; [|apply getPerformanceMetrics_notes].
      intros x Hx. left. exact Hx.
    + constructor; [|constructor]. right. eexists. reflexivity.
  - constructor.
Qed.

(** X1. When [runPerformanceTracker] is fulfilled and alerts are on,
    it warns about a metric exactly when the stored value is known and
    above the threshold resolved key by key: the one of the [thresholds]
    option, and the default for a key the option lacks. *)
Theorem tracker_alerts_resolve_key_by_key (o : Options) (h : Host)
  (events : list Event) (pm : PerformanceMetrics) (m : Metric) :
  or_default true (showAlerts o) = true ->
  returned (runPerformanceTracker o h events pm) = Fulfilled tt ->
  ((exists observed t,
      In (Warn (Exceeded m observed t)) (output (runPerformanceTracker o h events pm)))
   <-> spec_alerts (or_default ∅ (thresholds o))
         (store (runPerformanceTracker o h events pm)) m = true).
Proof.
  intros Ha Hr.
  destruct (runPerformanceTracker_fulfilled o h events pm Hr) as [pre [Hpre E]].
  rewrite E, Ha. clear E.
  set (T := or_default ∅ (thresholds o)).
  set (pm' := store (runPerformanceTracker o h events pm)).
  pose proof (alerted_iff (ArgObject (spread defaultThresholds T)) pm' m) as K.
  cbn [alert_source] in K. rewrite merged_threshold in K.
  unfold spec_alerts. rewrite <- K. unfold alerted. clear K.
  split.
  - intros [obs [t H]]. exists obs, t.
    rewrite !in_app_iff in H. destruct H as [H|[H|H]].
    + exfalso. apply (proj1 (List.Forall_forall _ _) Hpre) in H.
      destruct H as [H|[? H]]; [exact H | discriminate].
    + apply in_map_iff in H. destruct H as [w [Hw Hin]].
      injection Hw as ->. exact Hin.
    + exfalso. destruct (or_default true (enableGamification o)); simpl in H;
        [destruct H as [H|[]]; discriminate | exact H].
  - intros [obs [t H]]. exists obs, t.
    rewrite !in_app_iff. right. left. apply in_map. exact H.
Qed.

Lemma tracker_alerts_resolve_key_by_key_witness :
  (exists observed t,
     In (Warn (Exceeded FCP observed t))
        (output (runPerformanceTracker
                   (mkOptions None None None (Some (<["lcp" := VNum 4000]> ∅)))
                   browser_host full_trace
                   (set_scalar FCP (VStr "2500.00") initialMetrics))))
  <-> spec_alerts (or_default ∅ (Some (<["lcp" := VNum 4000]> ∅)))
        (store (runPerformanceTracker
                  (mkOptions None None None (Some (<["lcp" := VNum 4000]> ∅)))
                  browser_host full_trace
                  (set_scalar FCP (VStr "2500.00") initialMetrics))) FCP = true.
Proof.
  apply tracker_alerts_resolve_key_by_key.
  - reflexivity.
  - vm_compute. reflexivity.
Defined.

(** X2. Called with no argument or with an empty object,
    [checkPerformanceAlerts] warns about nothing, whatever the store
    holds: every threshold reads as undefined, and no value is above
    undefined. *)
Theorem alerts_without_thresholds_are_silent (pm : PerformanceMetrics) :
  checkPerformanceAlerts ArgOmitted pm = [] /\
  checkPerformanceAlerts (ArgObject ∅) pm = [].
Proof.
  assert (H : forall a, alert_source a = ∅ -> checkPerformanceAlerts a pm = []).
  { intros a Ha. unfold checkPerformanceAlerts. cbv zeta. rewrite Ha.
    unfold check_scalar, prop. rewrite !lookup_empty, !gt_undefined, !andb_false_r.
    simpl. induction (componentRenderTimes pm) as [|r rs IH]; [reflexivity|].
    simpl. unfold check_render at 1. rewrite gt_undefined. exact IH. }
  split; apply H; reflexivity.
Qed.

(** X3. Called with [null], [checkPerformanceAlerts] reads the
    defaults: it warns about a metric exactly when the value is known
    and above the default ceiling. *)
Theorem alerts_for_null_use_the_defaults (pm : PerformanceMetrics) (m : Metric) :
  alerted m (checkPerformanceAlerts ArgNull pm) <-> spec_alerts ∅ pm m = true.
Proof.
  rewrite alerted_iff. cbn [alert_source]. unfold spec_alerts, spec_resolve.
  rewrite lookup_empty. reflexivity.
Qed.

Lemma flat_map_check_render (t : value) (rs : list ComponentRender) :
  flat_map (check_render t) rs
  = map (render_warning t) (List.filter (fun r => gt (renderTime r) t) rs).
Proof.
  induction rs as [|r rs IH]; [reflexivity|].
  cbn [flat_map List.filter]. unfold check_render at 1.
  destruct (gt (renderTime r) t); cbn [map app]; rewrite IH; reflexivity.
Qed.

(** X4. After the warnings about scalar metrics, of which there are
    at most seven, [checkPerformanceAlerts] gives one warning for each
    render record above the render ceiling, in the order of the
    records, and none for the others: records of the same name are
    warned about one by one. *)
Theorem render_alerts_one_per_record (a : ThresholdsArg) (pm : PerformanceMetrics) :
  let t := prop (alert_source a) "componentRenderTime" in
  exists scalars,
    checkPerformanceAlerts a pm
    = scalars
      ++ map (render_warning t)
           (List.filter (fun r => gt (renderTime r) t) (componentRenderTimes pm)) /\
    Forall (fun w => exists m observed t', w = Exceeded m observed t') scalars /\
    (List.length scalars <= 7)%nat.
Proof.
  cbv zeta. unfold checkPerformanceAlerts. cbv zeta.
  rewrite flat_map_check_render.
  eexists. split; [repeat rewrite List.app_assoc; reflexivity|].
  unfold check_scalar.
  split.
  - repeat (apply Forall_app; split);
      match goal with
      | |- Forall _ (if ?b then _ else _) =>
          destruct b; constructor; [eexists _, _, _; reflexivity | constructor]
      end.
  - rewrite !length_app.
    repeat match goal with
           | |- context [if ?b then _ else _] => destruct b
           end; simpl; lia.
Qed.

(** ** Printed readings in comparisons and differences *)

Lemma toFixed_n_floor (x : Q) (f : nat) :
  Z.of_N (toFixed_n x f)
  = Qfloor (Qabs x * inject_Z (10 ^ Z.of_nat f) + (1 # 2)).
Proof.
  unfold toFixed_n. apply Z2N.id.
  change 0%Z with (Qfloor 0). apply Qfloor_resp_le.
  assert (0 <= Qabs x) by apply Qabs_nonneg.
  assert (0 <= inject_Z (10 ^ Z.of_nat f)).
  { change 0 with (inject_Z 0). rewrite <- Zle_Qle. apply Z.pow_nonneg. lia. }
  assert (0 <= Qabs x * inject_Z (10 ^ Z.of_nat f)) by (apply Qmult_le_0_compat; assumption).
  lra.
Qed.

Lemma scaled_numeral (z : Z) (f : nat) :
  (z # Z.to_pos (10 ^ Z.of_nat f)) * inject_Z (10 ^ Z.of_nat f) == inject_Z z.
Proof.
  assert (Hp : (0 < 10 ^ Z.of_nat f)%Z) by (apply Z.pow_pos_nonneg; lia).
  unfold Qeq, Qmult, inject_Z. simpl.
  rewrite Pos.mul_1_r, Z2Pos.id by exact Hp. ring.
Qed.

(** The numeral [toFixed] prints is within half a unit of the last
    printed decimal of the number. *)
Lemma toFixed_value_close (x : Q) (f : nat) :
  Qabs (toFixed_value x f - x) * inject_Z (10 ^ Z.of_nat f) <= 1 # 2.
Proof.
  set (P := inject_Z (10 ^ Z.of_nat f)).
  assert (HP : 0 <= P).
  { change 0 with (inject_Z 0). unfold P. rewrite <- Zle_Qle. apply Z.pow_nonneg. lia. }
  rewrite <- (Qabs_pos P HP) at 1. rewrite <- Qabs_Qmult.
  apply Qabs_Qle_condition.
  pose proof (Qfloor_le (Qabs x * P + (1 # 2))) as Hlo.
  pose proof (Qlt_floor (Qabs x * P + (1 # 2))) as Hhi.
  fold P in Hlo, Hhi. unfold P in Hlo, Hhi.
  rewrite <- toFixed_n_floor in Hlo, Hhi. fold P in Hlo, Hhi.
  rewrite inject_Z_plus in Hhi.
  pose proof (scaled_numeral (Z.of_N (toFixed_n x f)) f) as Hs. fold P in Hs.
  set (z := inject_Z (Z.of_N (toFixed_n x f))) in *.
  set (q := Z.of_N (toFixed_n x f) # Z.to_pos (10 ^ Z.of_nat f)) in *.
  unfold toFixed_value. fold q.
  destruct (Qgtb 0 x) eqn:Es.
  - apply Qgtb_true in Es.
    assert (Ea : Qabs x == - x) by (apply Qabs_neg; lra).
    rewrite Ea in Hlo, Hhi.
    assert (E : (- q - x) * P == - (q * P) + (- x) * P) by ring.
    rewrite E, Hs. change (inject_Z 1) with 1 in Hhi. split; lra.
  - apply Qgtb_false in Es.
    assert (Ea : Qabs x == x) by (apply Qabs_pos; exact Es).
    rewrite Ea in Hlo, Hhi.
    assert (E : (q - x) * P == q * P - x * P) by ring.
    rewrite E, Hs. change (inject_Z 1) with 1 in Hhi. split; lra.
Qed.

(** X5. A reading that was printed with [toFixed] and stored as text
    is compared with a numeric ceiling, and subtracted from it, as the
    number the text denotes: the reading rounded to the printed
    decimals, at most half a unit of the last decimal away from it. *)
Theorem printed_reading_acts_as_rounded_number (x : Q) (f : nat) (t : Q) :
  gt (VStr (toFixed x f)) (VNum t) = Qgtb (toFixed_value x f) t /\
  sub (VStr (toFixed x f)) (VNum t) = Some (toFixed_value x f - t) /\
  diff_div (VStr (toFixed x f)) (VNum t) = Some ((toFixed_value x f - t) / 100) /\
  Qabs (toFixed_value x f - x) * inject_Z (10 ^ Z.of_nat f) <= 1 # 2.
Proof.
  split; [|split; [|split]].
  - unfold gt. rewrite ToNumber_toFixed. reflexivity.
  - unfold sub. rewrite ToNumber_toFixed. reflexivity.
  - unfold diff_div, sub. rewrite ToNumber_toFixed. reflexivity.
  - apply toFixed_value_close.
Qed.


(** ** Settlement of the collectors' promises *)

Ltac break_matches :=
  repeat (match goal with
          | |- context [if ?b then _ else _] => destruct b
          | |- context [match ?x with _ => _ end] => destruct x
          end; cbn [fst snd promise with_promise detach]).

Lemma resolve_settled {A} (v : A) (p : Promise A) :
  settled p = true -> resolve v p = p.
Proof. destruct p; [discriminate | reflexivity | reflexivity]. Qed.

Lemma resolve_rejected {A} (v : A) (p : Promise A) :
  rejected (resolve v p) = rejected p.
Proof. destruct p; reflexivity. Qed.

Lemma handler_settled (pm : PerformanceMetrics) (e : Event) (c : Call) :
  settled (promise c) = true ->
  promise (fst (onFirstContentfulPaint e c)) = promise c /\
  promise (fst (onTimeToInteractive e c)) = promise c /\
  promise (fst (onLargestContentfulPaint e c)) = promise c /\
  promise (fst (onCumulativeLayoutShift e c)) = promise c /\
  promise (fst (onFirstInputDelay pm e c)) = promise c /\
  promise (fst (onInteractionToNextPaint e c)) = promise c.
Proof.
  intro H.
  unfold onFirstContentfulPaint, onTimeToInteractive, onLargestContentfulPaint,
    onCumulativeLayoutShift, onFirstInputDelay, onInteractionToNextPaint.
  repeat split; destruct e; cbn [fst]; try reflexivity;
    break_matches; try reflexivity; apply resolve_settled; exact H.
Qed.

Lemma handler_rejected (pm : PerformanceMetrics) (e : Event) (c : Call) :
  rejected (promise (fst (onFirstContentfulPaint e c))) = rejected (promise c) /\
  rejected (promise (fst (onTimeToInteractive e c))) = rejected (promise c) /\
  rejected (promise (fst (onLargestContentfulPaint e c))) = rejected (promise c) /\
  rejected (promise (fst (onCumulativeLayoutShift e c))) = rejected (promise c) /\
  rejected (promise (fst (onFirstInputDelay pm e c))) = rejected (promise c) /\
  rejected (promise (fst (onInteractionToNextPaint e c))) = rejected (promise c).
Proof.
  unfold onFirstContentfulPaint, onTimeToInteractive, onLargestContentfulPaint,
    onCumulativeLayoutShift, onFirstInputDelay, onInteractionToNextPaint.
  repeat split; destruct e; cbn [fst]; try reflexivity;
    break_matches; try reflexivity; apply resolve_rejected.
Qed.

Lemma deliver_promises (pm : PerformanceMetrics) (e : Event) (c : Cycle) (m : Metric) :
  promise_of m (fst (deliver pm e c))
  = match m with
    | FCP => promise (fst (onFirstContentfulPaint e (c_fcp c)))
    | TTI => promise (fst (onTimeToInteractive e (c_tti c)))
    | LCP => promise (fst (onLargestContentfulPaint e (c_lcp c)))
    | CLS => promise (fst (onCumulativeLayoutShift e (c_cls c)))
    | FID => promise (fst (onFirstInputDelay pm e (c_fid c)))
    | INP => promise (fst (onInteractionToNextPaint e (c_inp c)))
    | TTFB => promise (c_ttfb c)
    end.
Proof.
  unfold deliver.
  destruct (onFirstContentfulPaint e (c_fcp c)), (onTimeToInteractive e (c_tti c)),
    (onLargestContentfulPaint e (c_lcp c)), (onCumulativeLayoutShift e (c_cls c)),
    (onFirstInputDelay pm e (c_fid c)), (onInteractionToNextPaint e (c_inp c)).
  destruct m; reflexivity.
Qed.

Lemma promises_of (c : Cycle) :
  promises c = map (fun m => promise_of m c) [FCP; TTI; LCP; CLS; FID; INP; TTFB].
Proof. reflexivity. Qed.

(** X6. Only the first settlement of a collector's promise counts:
    once it is fulfilled or rejected, no event the host delivers
    changes it. *)
Theorem first_settlement_wins (pm : PerformanceMetrics) (e : Event) (c : Cycle)
  (m : Metric) :
  settled (promise_of m c) = true ->
  promise_of m (fst (deliver pm e c)) = promise_of m c.
Proof.
  intro H. rewrite deliver_promises.
  destruct m; cbn [promise_of] in *; try reflexivity;
    destruct (handler_settled pm e _ H) as (? & ? & ? & ? & ? & ?); assumption.
Qed.

Lemma first_settlement_wins_witness :
  promise_of TTI (fst (deliver initialMetrics (LoadEvent 2000) (start_cycle browser_host)))
  = promise_of TTI (start_cycle browser_host).
Proof.
  apply first_settlement_wins. reflexivity.
Defined.

Lemma deliver_rejected (pm : PerformanceMetrics) (e : Event) (c : Cycle) (m : Metric) :
  rejected (promise_of m (fst (deliver pm e c))) = rejected (promise_of m c).
Proof.
  rewrite deliver_promises.
  destruct m; cbn [promise_of]; try reflexivity;
    match goal with
    | |- rejected (promise (fst (_ ?c'))) = _ =>
        destruct (handler_rejected pm e c') as (? & ? & ? & ? & ? & ?); assumption
    end.
Qed.

Lemma Promise_all_rejected (ps : list (Promise value)) :
  rejected (Promise_all ps) = existsb rejected ps.
Proof.
  induction ps as [|p ps IH]; [reflexivity|].
  cbn [Promise_all existsb]. rewrite <- IH.
  destruct p, (Promise_all ps); reflexivity.
Qed.

Lemma deliver_existsb_rejected (pm : PerformanceMetrics) (e : Event) (c : Cycle) :
  existsb rejected (promises (fst (deliver pm e c))) = existsb rejected (promises c).
Proof.
  rewrite !promises_of. cbn [map existsb]. rewrite !deliver_rejected. reflexivity.
Qed.

Lemma await_all_rejects (events : list Event) :
  forall pm c out,
    rejected (returned (await_all pm c events out)) = existsb rejected (promises c).
Proof.
  induction events as [|e rest IH]; intros pm c out; cbn [await_all];
    rewrite <- Promise_all_rejected;
    destruct (Promise_all (promises c)) eqn:E; cbn [returned]; try reflexivity.
  pose proof (deliver_existsb_rejected pm e c) as K.
  destruct (deliver pm e c) as [c' o]. cbn [fst] in K.
  rewrite IH, K, <- Promise_all_rejected, E. reflexivity.
Qed.

Lemma start_cycle_rejected (h : Host) :
  existsb rejected (promises (start_cycle h)) = negb (has_window h && readable h).
Proof.
  unfold promises, start_cycle. cbn [c_fcp c_tti c_lcp c_cls c_fid c_inp c_ttfb].
  unfold trackFirstContentfulPaint, trackLargestContentfulPaint,
    trackCumulativeLayoutShift, trackFirstInputDelay, trackTimeToInteractive,
    trackTimeToFirstByte, trackInteractionToNextPaint, supported, readable.
  destruct (has_window h), (has_PerformanceObserver h), (has_document h),
    (readyState_complete h), (has_performance h), (has_timing h);
    reflexivity.
Qed.

(** X7. The aggregation is rejected exactly when the host lacks one
    of the things the collectors read without a test: the window the
    interaction collector reaches for, the document of the
    interactive-time collector, or [performance] and
    [performance.timing] of the byte-latency collector.  No event
    rejects a promise. *)
Theorem aggregation_rejects_exactly_in_unreadable_host (h : Host) (events : list Event)
  (pm : PerformanceMetrics) :
  rejected (returned (getPerformanceMetrics h events pm))
  = negb (has_window h && has_document h && has_performance h && has_timing h).
Proof.
  unfold getPerformanceMetrics. rewrite await_all_rejects, start_cycle_rejected.
  unfold readable. rewrite !andb_assoc. reflexivity.
Qed.

(** ** The merge *)

Lemma await_all_atomic (events : list Event) :
  forall pm c out,
    match returned (await_all pm c events out) with
    | Fulfilled pm' =>
        store (await_all pm c events out) = pm' /\
        componentRenderTimes pm' = componentRenderTimes pm
    | _ => store (await_all pm c events out) = pm
    end.
Proof.
  induction events as [|e rest IH]; intros pm c out; cbn [await_all];
    destruct (Promise_all (promises c)) eqn:E; cbn [returned store];
    try reflexivity; try (split; [reflexivity | apply merge_renders]).
  destruct (deliver pm e c) as [c' o]. apply IH.
Qed.

(** X8. The aggregation writes all or nothing: when its promise is
    fulfilled the store is the snapshot it was fulfilled with, with the
    render records it had; while it is pending, and when it is
    rejected, the store is exactly what it was before the call. *)
Theorem aggregation_writes_all_or_nothing (h : Host) (events : list Event)
  (pm : PerformanceMetrics) :
  match returned (getPerformanceMetrics h events pm) with
  | Fulfilled pm' =>
      store (getPerformanceMetrics h events pm) = pm' /\
      componentRenderTimes pm' = componentRenderTimes pm
  | _ => store (getPerformanceMetrics h events pm) = pm
  end.
Proof. apply await_all_atomic. Qed.

(** X9. The join hands each collector's value to the field of its own
    metric: when [Promise.all] over the seven promises is fulfilled,
    every scalar field of the merged snapshot is the value its
    collector's promise was fulfilled with. *)
Theorem merge_gives_each_field_its_collector (c : Cycle) (vs : list value)
  (pm : PerformanceMetrics) (m : Metric) :
  Promise_all (promises c) = Fulfilled vs ->
  promise_of m c = Fulfilled (scalar m (merge vs pm)).
Proof.
  intro E. apply Promise_all_fulfilled in E. unfold promises in E.
  do 7 (destruct vs as [|? vs]; [discriminate|]).
  destruct vs; [|discriminate].
  injection E as E1 E2 E3 E4 E5 E6 E7.
  destruct m; cbn [promise_of merge scalar firstContentfulPaint timeToInteractive
                     largestContentfulPaint cumulativeLayoutShift firstInputDelay
                     interactionToNextPaint timeToFirstByte]; assumption.
Qed.

Lemma merge_gives_each_field_its_collector_witness :
  promise_of INP
    (mkCycle (settled_now VNull) (settled_now (VStr "1234.50")) (settled_now VNull)
             (settled_now VNull) (settled_now VNull) (settled_now (VStr "20.25"))
             (settled_now (VStr "300.00")))
  = Fulfilled (scalar INP
                 (merge [VNull; VStr "1234.50"; VNull; VNull; VNull; VStr "20.25";
                         VStr "300.00"] initialMetrics)).
Proof.
  apply merge_gives_each_field_its_collector. reflexivity.
Defined.

(** ** The join waits for every collector *)

Lemma find_existsb_none {A} (f : A -> bool) (l : list A) :
  existsb f l = false -> List.find f l = None.
Proof.
  induction l as [|a l IH]; simpl; [reflexivity|].
  destruct (f a); [discriminate | exact IH].
Qed.

Lemma onFirstContentfulPaint_idle (e : Event) (c : Call) :
  brings_contentful_paint e = false -> onFirstContentfulPaint e c = (c, []).
Proof.
  intro H. destruct e; try reflexivity. simpl in *.
  rewrite (find_existsb_none _ _ H). destruct (attached c); reflexivity.
Qed.

Lemma Promise_all_waits (p : Promise value) (ps : list (Promise value)) :
  p = Pending -> existsb rejected (p :: ps) = false ->
  Promise_all (p :: ps) = Pending.
Proof.
  intros -> H. cbn [existsb rejected orb] in H.
  rewrite <- Promise_all_rejected in H. cbn [Promise_all].
  destruct (Promise_all ps); [reflexivity | reflexivity | discriminate].
Qed.

Lemma await_all_waits (events : list Event) :
  forall pm c out,
    promise (c_fcp c) = Pending ->
    existsb rejected (promises c) = false ->
    forallb (fun e => negb (brings_contentful_paint e)) events = true ->
    returned (await_all pm c events out) = Pending.
Proof.
  induction events as [|e rest IH]; intros pm c out Hp Hr He; cbn [await_all];
    (assert (E : Promise_all (promises c) = Pending)
      by (apply Promise_all_waits; assumption));
    rewrite E; [reflexivity|].
  cbn [forallb] in He. apply andb_prop in He. destruct He as [He Hrest].
  apply negb_true_iff in He.
  pose proof (deliver_existsb_rejected pm e c) as K.
  pose proof (deliver_promises pm e c FCP) as L.
  rewrite (onFirstContentfulPaint_idle _ _ He) in L.
  destruct (deliver pm e c) as [c' o]. cbn [fst promise_of] in *.
  apply IH; [congruence | congruence | exact Hrest].
Qed.

Lemma unfulfilled_keeps_store (h : Host) (events : list Event) (pm : PerformanceMetrics) :
  (returned (getPerformanceMetrics h events pm) = Pending \/
   rejected (returned (getPerformanceMetrics h events pm)) = true) ->
  store (getPerformanceMetrics h events pm) = pm.
Proof.
  intro H.
  pose proof (await_all_atomic events pm (start_cycle h) []) as K.
  fold (getPerformanceMetrics h events pm) in K.
  destruct (returned (getPerformanceMetrics h events pm)); try exact K.
  destruct H; discriminate.
Qed.

Lemma unreadable_rejects (h : Host) (events : list Event) (pm : PerformanceMetrics) :
  readable h = false ->
  rejected (returned (getPerformanceMetrics h events pm)) = true.
Proof.
  intro Hr. unfold getPerformanceMetrics.
  rewrite await_all_rejects, start_cycle_rejected, Hr, andb_false_r. reflexivity.
Qed.

(** X10. In a browser with [PerformanceObserver], as long as no event
    brings a paint entry named first-contentful-paint, the aggregation
    stays pending and the store untouched, whatever else arrives,
    timers included: the paint collector has no fallback, and the join
    waits for it.  (A host with a window and [PerformanceObserver] but
    without document, [performance] or [performance.timing] rejects
    the aggregation at once; the store is untouched there too.) *)
Theorem aggregation_waits_for_contentful_paint (h : Host) (events : list Event)
  (pm : PerformanceMetrics) :
  supported h = true ->
  forallb (fun e => negb (brings_contentful_paint e)) events = true ->
  (if readable h
   then returned (getPerformanceMetrics h events pm) = Pending
   else rejected (returned (getPerformanceMetrics h events pm)) = true) /\
  store (getPerformanceMetrics h events pm) = pm.
Proof.
  intros Hs He. destruct (readable h) eqn:Hr.
  - assert (Hp : returned (getPerformanceMetrics h events pm) = Pending).
    { unfold getPerformanceMetrics. apply await_all_waits; [| |exact He].
      - unfold start_cycle, trackFirstContentfulPaint. cbn [c_fcp]. rewrite Hs. reflexivity.
      - rewrite start_cycle_rejected, Hr. unfold supported in Hs. apply andb_prop in Hs.
        destruct Hs as [-> _]. reflexivity. }
    split; [exact Hp|]. apply unfulfilled_keeps_store. left. exact Hp.
  - pose proof (unreadable_rejects h events pm Hr) as Hp.
    split; [exact Hp|]. apply unfulfilled_keeps_store. right. exact Hp.
Qed.

Lemma aggregation_waits_for_contentful_paint_witness :
  returned (getPerformanceMetrics browser_host
              [PaintEntries [mkPaint "first-paint" 801.2]; LargestPaintEntries [1520.456];
               LayoutShiftEntries []; Click 2100.75 2080.5; FidTimer; InpTimer]
              initialMetrics) = Pending /\
  store (getPerformanceMetrics browser_host
           [PaintEntries [mkPaint "first-paint" 801.2]; LargestPaintEntries [1520.456];
            LayoutShiftEntries []; Click 2100.75 2080.5; FidTimer; InpTimer]
           initialMetrics) = initialMetrics.
Proof.
  apply (aggregation_waits_for_contentful_paint browser_host); reflexivity.
Defined.

(** ** The collectors one by one *)

(** X11. The paint collector takes the first entry named
    first-contentful-paint of a batch, prints its start time with 2
    decimals and disconnects; a batch without such an entry leaves it
    observing. *)
Theorem contentful_paint_takes_first_named_entry (h : Host)
  (before after : list PaintEntry) (p : PaintEntry) :
  supported h = true ->
  existsb (fun q => String.eqb (paint_name q) "first-contentful-paint") before = false ->
  paint_name p = "first-contentful-paint" ->
  onFirstContentfulPaint (PaintEntries (before ++ p :: after)) (trackFirstContentfulPaint h)
  = (mkCall (Fulfilled (VStr (toFixed (paint_startTime p) 2))) false false false, []) /\
  onFirstContentfulPaint (PaintEntries before) (trackFirstContentfulPaint h)
  = (observing, []).
Proof.
  intros Hs Hb Hp. unfold trackFirstContentfulPaint. rewrite Hs. split.
  - cbn [onFirstContentfulPaint observing attached].
    assert (E : List.find (fun q => String.eqb (paint_name q) "first-contentful-paint")
                  (before ++ p :: after) = Some p).
    { clear Hs. induction before as [|b before IH]; simpl in *.
      - rewrite Hp. reflexivity.
      - destruct (String.eqb (paint_name b) "first-contentful-paint");
          [discriminate | apply IH; exact Hb]. }
    rewrite E. reflexivity.
  - apply onFirstContentfulPaint_idle. exact Hb.
Qed.

Lemma contentful_paint_takes_first_named_entry_witness :
  onFirstContentfulPaint
    (PaintEntries ([mkPaint "first-paint" 801.2]
                   ++ mkPaint "first-contentful-paint" 812.345
                   :: [mkPaint "first-contentful-paint" 990]))
    (trackFirstContentfulPaint browser_host)
  = (mkCall (Fulfilled (VStr (toFixed 812.345 2))) false false false, []) /\
  onFirstContentfulPaint (PaintEntries [mkPaint "first-paint" 801.2])
    (trackFirstContentfulPaint browser_host)
  = (observing, []).
Proof.
  apply (contentful_paint_takes_first_named_entry browser_host
           [mkPaint "first-paint" 801.2] [mkPaint "first-contentful-paint" 990]
           (mkPaint "first-contentful-paint" 812.345)); reflexivity.
Defined.

(** X12. The interactive-time collector is settled by whichever comes
    first: in a loaded document at the call, with the clock reading of
    the call, and a later load event changes nothing; otherwise it is
    pending until the load event, whose clock reading it takes.
    Without a document, and in a loaded document without
    [performance], its executor throws and the promise is rejected. *)
Theorem interactive_time_first_of_ready_and_load (h : Host) (now : Q) :
  has_window h = true ->
  (has_document h = true -> readyState_complete h = true ->
   has_performance h = true ->
     promise (trackTimeToInteractive h)
     = Fulfilled (VStr (toFixed (performance_now h) 2)) /\
     promise (fst (onTimeToInteractive (LoadEvent now) (trackTimeToInteractive h)))
     = Fulfilled (VStr (toFixed (performance_now h) 2))) /\
  (has_document h = true -> readyState_complete h = false ->
     promise (trackTimeToInteractive h) = Pending /\
     promise (fst (onTimeToInteractive (LoadEvent now) (trackTimeToInteractive h)))
     = Fulfilled (VStr (toFixed now 2))) /\
  (has_document h = false ->
     promise (trackTimeToInteractive h) = Rejected (ReferenceError "document")) /\
  (has_document h = true -> readyState_complete h = true ->
   has_performance h = false ->
     promise (trackTimeToInteractive h) = Rejected (ReferenceError "performance")).
Proof.
  intro Hw. unfold trackTimeToInteractive. rewrite Hw.
  split; [|split; [|split]].
  - intros -> -> ->. split; reflexivity.
  - intros -> ->. split; reflexivity.
  - intros ->. reflexivity.
  - intros -> -> ->. reflexivity.
Qed.

Lemma interactive_time_first_of_ready_and_load_witness :
  promise (fst (onTimeToInteractive (LoadEvent 2000) (trackTimeToInteractive browser_host)))
  = Fulfilled (VStr (toFixed (performance_now browser_host) 2)) /\
  promise (fst (onTimeToInteractive (LoadEvent 2000)
                  (trackTimeToInteractive (mkHost true true false 10 500 200 true true true))))
  = Fulfilled (VStr (toFixed 2000 2)) /\
  promise (trackTimeToInteractive (mkHost true false true 10 500 200 false true false))
  = Rejected (ReferenceError "document").
Proof.
  split; [|split].
  - apply (interactive_time_first_of_ready_and_load browser_host 2000); reflexivity.
  - apply (interactive_time_first_of_ready_and_load
             (mkHost true true false 10 500 200 true true true) 2000);
      reflexivity.
  - apply (interactive_time_first_of_ready_and_load
             (mkHost true false true 10 500 200 false true false) 2000);
      reflexivity.
Defined.

Lemma last_map_Some_app {A} (l : list A) (x : A) :
  List.last (map Some (l ++ [x])) None = Some x.
Proof. rewrite map_app. cbn [map]. apply List.last_last. Qed.

(** X13. The largest-paint collector takes the last entry of the
    batch it is called with and disconnects.  An empty batch makes its
    callback throw a TypeError, which nobody catches: the promise stays
    pending and the observer connected. *)
Theorem largest_paint_takes_last_entry (h : Host) (startTimes : list Q) (x : Q) :
  supported h = true ->
  onLargestContentfulPaint (LargestPaintEntries (startTimes ++ [x]))
    (trackLargestContentfulPaint h)
  = (mkCall (Fulfilled (VStr (toFixed x 2))) false false false, []) /\
  onLargestContentfulPaint (LargestPaintEntries []) (trackLargestContentfulPaint h)
  = (observing, [Uncaught (TypeError "startTime")]).
Proof.
  intro Hs. unfold trackLargestContentfulPaint. rewrite Hs. split; [|reflexivity].
  cbn [onLargestContentfulPaint observing attached].
  rewrite last_map_Some_app. reflexivity.
Qed.

Lemma largest_paint_takes_last_entry_witness :
  onLargestContentfulPaint (LargestPaintEntries ([900.1] ++ [1520.456]))
    (trackLargestContentfulPaint browser_host)
  = (mkCall (Fulfilled (VStr (toFixed 1520.456 2))) false false false, []) /\
  onLargestContentfulPaint (LargestPaintEntries []) (trackLargestContentfulPaint browser_host)
  = (observing, [Uncaught (TypeError "startTime")]).
Proof.
  apply largest_paint_takes_last_entry. reflexivity.
Defined.








(** ** Feedback and gamification *)

Lemma provideFeedback_cases (score : Z) :
  provideFeedback score
  = if (90 <=? score)%Z then Some (mkMessage Excellent score)
    else if (70 <=? score)%Z then Some (mkMessage Good score)
    else if (0 <=? score)%Z then Some (mkMessage NeedsImprovement score)
    else None.
Proof.
  unfold provideFeedback, feedbackMap. cbn [List.find threshold].
  destruct (90 <=? score)%Z; [reflexivity|].
  destruct (70 <=? score)%Z; [reflexivity|].
  destruct (0 <=? score)%Z; reflexivity.
Qed.

Lemma score_nonneg (pm : PerformanceMetrics) : (0 <= calculatePerformanceScore pm)%Z.
Proof. unfold calculatePerformanceScore. apply Z.le_max_l. Qed.

(** X17. [provideFeedback] finds no entry, and logs undefined, exactly
    for a negative score; a message it does log quotes the score it was
    given.  [calculatePerformanceScore] never gives a negative score, so
    the feedback on a computed score is always a message. *)
Theorem feedback_is_undefined_exactly_below_zero :
  (forall score, provideFeedback score = None <-> (score < 0)%Z) /\
  (forall score msg, provideFeedback score = Some msg -> quoted msg = score) /\
  (forall pm, exists t,
     provideFeedback (calculatePerformanceScore pm)
     = Some (mkMessage t (calculatePerformanceScore pm))).
Proof.
  split; [|split].
  - intro score. rewrite provideFeedback_cases.
    destruct (Z.leb_spec 90 score); [split; [discriminate | lia]|].
    destruct (Z.leb_spec 70 score); [split; [discriminate | lia]|].
    destruct (Z.leb_spec 0 score); [split; [discriminate | lia]|].
    split; [lia | reflexivity].
  - intros score msg. rewrite provideFeedback_cases.
    destruct (90 <=? score)%Z; [intro H; injection H as <-; reflexivity|].
    destruct (70 <=? score)%Z; [intro H; injection H as <-; reflexivity|].
    destruct (0 <=? score)%Z; [intro H; injection H as <-; reflexivity|].
    discriminate.
  - intro pm. pose proof (score_nonneg pm) as H. rewrite provideFeedback_cases.
    destruct (90 <=? _)%Z; [eexists; reflexivity|].
    destruct (70 <=? _)%Z; [eexists; reflexivity|].
    destruct (Z.leb_spec 0 (calculatePerformanceScore pm)); [eexists; reflexivity | lia].
Qed.

Lemma feedback_is_undefined_exactly_below_zero_witness :
  provideFeedback (-1) = None /\ quoted (mkMessage Good 75) = 75%Z.
Proof.
  destruct feedback_is_undefined_exactly_below_zero as [Hn [Hq _]].
  split.
  - apply Hn. lia.
  - apply (Hq 75%Z). reflexivity.
Defined.

(** X18. [runGamification] logs feedback only after a fulfilled
    aggregation: then it adds, to what the aggregation left on the
    console, one feedback on the score of the merged snapshot.  When
    the aggregation is pending or rejected, nothing is logged and the
    promise of [runGamification] is not fulfilled either. *)
Theorem gamification_follows_the_aggregation (h : Host) (events : list Event)
  (pm : PerformanceMetrics) :
  match returned (getPerformanceMetrics h events pm) with
  | Fulfilled pm' =>
      runGamification h events pm
      = mkRun (Fulfilled tt) pm'
          (output (getPerformanceMetrics h events pm)
           ++ [LogFeedback (provideFeedback (calculatePerformanceScore pm'))])
  | Pending =>
      runGamification h events pm
      = mkRun Pending pm (output (getPerformanceMetrics h events pm))
  | Rejected e =>
      runGamification h events pm
      = mkRun (Rejected e) pm (output (getPerformanceMetrics h events pm))
  end.
Proof.
  pose proof (await_all_atomic events pm (start_cycle h) []) as K.
  fold (getPerformanceMetrics h events pm) in K.
  unfold runGamification, then_log, gamify.
  destruct (returned (getPerformanceMetrics h events pm)) as [|pm'|e].
  - rewrite K. reflexivity.
  - destruct K as [-> _]. reflexivity.
  - rewrite K. reflexivity.
Qed.

(** ** The all-in-one call *)

Lemma start_cycle_no_window (h : Host) :
  has_window h = false ->
  Promise_all (promises (start_cycle h)) = Rejected (ReferenceError "window").
Proof.
  intro H. unfold promises, start_cycle.
  cbn [c_fcp c_tti c_lcp c_cls c_fid c_inp c_ttfb].
  unfold trackFirstContentfulPaint, trackLargestContentfulPaint,
    trackCumulativeLayoutShift, trackFirstInputDelay, trackTimeToInteractive,
    trackTimeToFirstByte, trackInteractionToNextPaint, supported.
  rewrite H. reflexivity.
Qed.

(** X19. Without a window [runPerformanceTracker] with metrics
    tracking on, as it is by default, is rejected with the
    ReferenceError of the interaction collector before anything is
    logged: no snapshot, no alert, no feedback.  With tracking off it
    does not touch the host: it is fulfilled, leaves the store as it
    was, and gives the same console in every host and for every
    event. *)
Theorem tracker_needs_window_only_to_track (o : Options) (h : Host)
  (events : list Event) (pm : PerformanceMetrics) :
  (has_window h = false -> or_default true (trackMetrics o) = true ->
     runPerformanceTracker o h events pm
     = mkRun (Rejected (ReferenceError "window")) pm []) /\
  (or_default true (trackMetrics o) = false ->
     returned (runPerformanceTracker o h events pm) = Fulfilled tt /\
     store (runPerformanceTracker o h events pm) = pm /\
     forall h' events',
       runPerformanceTracker o h' events' pm = runPerformanceTracker o h events pm).
Proof.
  split.
  - intros Hw Ht. unfold runPerformanceTracker. cbv zeta. rewrite Ht.
    unfold getPerformanceMetrics.
    rewrite (await_all_rejected _ _ _ _ _ (start_cycle_no_window h Hw)).
    reflexivity.
  - intro Ht. unfold runPerformanceTracker. cbv zeta. rewrite Ht.
    repeat split.
Qed.

Lemma tracker_needs_window_only_to_track_witness :
  runPerformanceTracker (mkOptions None None None None) server_host idle_trace initialMetrics
  = mkRun (Rejected (ReferenceError "window")) initialMetrics [] /\
  returned (runPerformanceTracker (mkOptions (Some false) None None None)
              server_host idle_trace initialMetrics) = Fulfilled tt.
Proof.
  split.
  - apply (tracker_needs_window_only_to_track (mkOptions None None None None));
      reflexivity.
  - apply (tracker_needs_window_only_to_track (mkOptions (Some false) None None None)
             server_host idle_trace initialMetrics).
    reflexivity.
Defined.

Lemma filter_feedback_warn (ws : list Warning) :
  List.filter is_feedback (map Warn ws) = [].
Proof. induction ws as [|w ws IH]; [reflexivity | exact IH]. Qed.

(** X20. The thresholds option changes the warnings only: the
    promise, the store and the feedback of [runPerformanceTracker] are
    the same for any two threshold objects, since the score is always
    taken against the default ceilings. *)
Theorem thresholds_option_changes_warnings_only (tm sa eg : option bool)
  (T1 T2 : option Thresholds) (h : Host) (events : list Event)
  (pm : PerformanceMetrics) :
  let r1 := runPerformanceTracker (mkOptions tm sa eg T1) h events pm in
  let r2 := runPerformanceTracker (mkOptions tm sa eg T2) h events pm in
  returned r1 = returned r2 /\
  store r1 = store r2 /\
  List.filter is_feedback (output r1) = List.filter is_feedback (output r2).
Proof.
  cbv zeta. unfold runPerformanceTracker. cbv zeta.
  cbn [trackMetrics showAlerts enableGamification thresholds].
  set (tr := if or_default true tm
             then then_log (getPerformanceMetrics h events pm) (fun pm' => [LogMetrics pm'])
             else mkRun (Fulfilled tt) pm []).
  unfold then_log. destruct (returned tr); cbn [returned store output];
    repeat split.
  rewrite !List.filter_app.
  destruct (or_default true sa); [rewrite !filter_feedback_warn|]; reflexivity.
Qed.

(** ** The render log of a session *)

Lemma fold_step_renders (ops : list Op) :
  forall pm,
    componentRenderTimes (fold_left step ops pm)
    = componentRenderTimes pm ++ flat_map tracked ops.
Proof.
  induction ops as [|op ops IH]; intro pm; cbn [fold_left flat_map].
  - rewrite app_nil_r. reflexivity.
  - rewrite IH. rewrite List.app_assoc. f_equal.
    destruct op; cbn [step tracked].
    + reflexivity.
    + rewrite getPerformanceMetrics_renders, app_nil_r. reflexivity.
    + rewrite runGamification_store, getPerformanceMetrics_renders, app_nil_r.
      reflexivity.
    + rewrite runPerformanceTracker_store, app_nil_r.
      destruct (or_default true (trackMetrics options));
        [apply getPerformanceMetrics_renders | reflexivity].
    + rewrite app_nil_r. reflexivity.
    + rewrite app_nil_r. reflexivity.
Qed.

(** X23. At every point of a session the render log is the sequence
    of the calls of [trackComponentRender] made so far, in the order of
    the calls and with the raw numbers they were given: no exported
    function removes, reorders or rewrites a record, and none but
    [trackComponentRender] adds one. *)
Theorem render_log_is_the_tracked_calls (ops : list Op) :
  componentRenderTimes (session ops) = flat_map tracked ops.
Proof. unfold session. rewrite fold_step_renders. reflexivity. Qed.

(** ** A later aggregation after a recorded input delay *)

Lemma Promise_all_pending (ps : list (Promise value)) :
  In Pending ps -> existsb rejected ps = false -> Promise_all ps = Pending.
Proof.
  induction ps as [|p ps IH]; intros Hin Hr; [destruct Hin|].
  cbn [existsb] in Hr. apply orb_false_elim in Hr. destruct Hr as [Hp Hps].
  cbn [Promise_all]. destruct Hin as [->|Hin].
  - rewrite <- Promise_all_rejected in Hps.
    destruct (Promise_all ps); [reflexivity | reflexivity | discriminate].
  - rewrite (IH Hin Hps). destruct p; [reflexivity | reflexivity | discriminate].
Qed.

Lemma onFirstInputDelay_idle (pm : PerformanceMetrics) (e : Event) (c : Call) :
  brings_first_input e = false ->
  is_null (firstInputDelay pm) = false ->
  promise (fst (onFirstInputDelay pm e c)) = promise c.
Proof.
  intros He Hpm. destruct e; try reflexivity; [discriminate|].
  cbn [onFirstInputDelay]. rewrite Hpm. destruct (timer c); reflexivity.
Qed.

Lemma await_all_stuck_on_input_delay (events : list Event) :
  forall pm c out,
    is_null (firstInputDelay pm) = false ->
    promise (c_fid c) = Pending ->
    existsb rejected (promises c) = false ->
    forallb (fun e => negb (brings_first_input e)) events = true ->
    returned (await_all pm c events out) = Pending.
Proof.
  induction events as [|e rest IH]; intros pm c out Hpm Hp Hr He; cbn [await_all];
    (assert (E : Promise_all (promises c) = Pending)
      by (apply Promise_all_pending;
          [unfold promises; rewrite Hp; simpl; tauto | exact Hr]));
    rewrite E; [reflexivity|].
  cbn [forallb] in He. apply andb_prop in He. destruct He as [He Hrest].
  apply negb_true_iff in He.
  pose proof (deliver_existsb_rejected pm e c) as K.
  pose proof (deliver_promises pm e c FID) as L.
  rewrite (onFirstInputDelay_idle _ _ _ He Hpm) in L.
  destruct (deliver pm e c) as [c' o]. cbn [fst promise_of] in *.
  apply IH; [exact Hpm | congruence | congruence | exact Hrest].
Qed.

(** X24. Once a value is stored for the first input delay, an
    aggregation in a browser to which no first-input entries are
    delivered is never through: whatever else arrives, both timers
    included, its promise stays pending and the store as it was.  The
    timer of the input-delay collector finds the stored value and
    resolves nothing.  (A host with a window and [PerformanceObserver]
    but without document, [performance] or [performance.timing]
    rejects the aggregation at once; the store is as it was there
    too.) *)
Theorem aggregation_hangs_after_recorded_input_delay (h : Host) (events : list Event)
  (pm : PerformanceMetrics) :
  supported h = true ->
  is_null (firstInputDelay pm) = false ->
  forallb (fun e => negb (brings_first_input e)) events = true ->
  (if readable h
   then returned (getPerformanceMetrics h events pm) = Pending
   else rejected (returned (getPerformanceMetrics h events pm)) = true) /\
  store (getPerformanceMetrics h events pm) = pm.
Proof.
  intros Hs Hpm He. destruct (readable h) eqn:Hr.
  - assert (Hp : returned (getPerformanceMetrics h events pm) = Pending).
    { unfold getPerformanceMetrics. apply await_all_stuck_on_input_delay;
        [exact Hpm | | | exact He].
      - unfold start_cycle, trackFirstInputDelay. cbn [c_fid]. rewrite Hs. reflexivity.
      - rewrite start_cycle_rejected, Hr. unfold supported in Hs. apply andb_prop in Hs.
        destruct Hs as [-> _]. reflexivity. }
    split; [exact Hp|]. apply unfulfilled_keeps_store. left. exact Hp.
  - pose proof (unreadable_rejects h events pm Hr) as Hp.
    split; [exact Hp|]. apply unfulfilled_keeps_store. right. exact Hp.
Qed.

Lemma aggregation_hangs_after_recorded_input_delay_witness :
  returned (getPerformanceMetrics browser_host idle_trace
              (store (getPerformanceMetrics browser_host full_trace initialMetrics)))
  = Pending /\
  store (getPerformanceMetrics browser_host idle_trace
           (store (getPerformanceMetrics browser_host full_trace initialMetrics)))
  = store (getPerformanceMetrics browser_host full_trace initialMetrics).
Proof.
  apply (aggregation_hangs_after_recorded_input_delay browser_host).
  - reflexivity.
  - vm_compute. reflexivity.
  - reflexivity.
Defined.

(** ** What the aggregation is rejected with *)

(** X25. In a host with a window the aggregation is rejected, before
    any event and with the store as it was, with the error of the
    first collector of the array that throws: without a document the
    ReferenceError of the interactive-time collector, whatever else is
    missing; with a document but without [performance] the
    ReferenceError for [performance]; and with both but without
    [performance.timing] the TypeError of the byte-latency collector. *)
Theorem aggregation_rejects_with_first_thrown_error (h : Host) (events : list Event)
  (pm : PerformanceMetrics) :
  has_window h = true ->
  (has_document h = false ->
     getPerformanceMetrics h events pm
     = mkRun (Rejected (ReferenceError "document")) pm []) /\
  (has_document h = true -> has_performance h = false ->
     getPerformanceMetrics h events pm
     = mkRun (Rejected (ReferenceError "performance")) pm []) /\
  (has_document h = true -> has_performance h = true -> has_timing h = false ->
     getPerformanceMetrics h events pm
     = mkRun (Rejected (TypeError "responseStart")) pm []).
Proof.
  intro Hw. unfold getPerformanceMetrics.
  split; [|split]; intros; apply await_all_rejected;
    unfold promises, start_cycle; cbn [c_fcp c_tti c_lcp c_cls c_fid c_inp c_ttfb];
    unfold trackFirstContentfulPaint, trackLargestContentfulPaint,
      trackCumulativeLayoutShift, trackFirstInputDelay, trackTimeToInteractive,
      trackTimeToFirstByte, trackInteractionToNextPaint, supported;
    repeat match goal with H : _ = _ |- _ => rewrite H; clear H end;
    destruct (has_PerformanceObserver h), (readyState_complete h);
    try destruct (has_timing h); reflexivity.
Qed.

Lemma aggregation_rejects_with_first_thrown_error_witness :
  getPerformanceMetrics (mkHost true false false 10 0 0 false true false) idle_trace
    initialMetrics
  = mkRun (Rejected (ReferenceError "document")) initialMetrics [] /\
  getPerformanceMetrics (mkHost true true true 10 0 0 true true false) idle_trace
    initialMetrics
  = mkRun (Rejected (TypeError "responseStart")) initialMetrics [].
Proof.
  split.
  - apply (aggregation_rejects_with_first_thrown_error
             (mkHost true false false 10 0 0 false true false)); reflexivity.
  - apply (aggregation_rejects_with_first_thrown_error
             (mkHost true true true 10 0 0 true true false)); reflexivity.
Defined.
